(** * WalkPath navigation assistant: a shallow embedding of [yoe.py]

    The program is a Tk desktop application ([WalkPathNavApp]) with two
    buttons.  Its UI thread runs the handlers [start_navigation],
    [stop_navigation] and the rescheduled capture tick [update_frame]; a
    daemon thread runs [run_gemini_assistant], the advisory loop.

    The embedding keeps the attributes of the Python object in records, the
    external collaborators (camera, detector display, remote model, speech
    engine, clock) as inputs supplied per step, and every externally visible
    effect as an entry of a log, labelled with the thread that performed it.
    The advisory loop is a program counter with one step per source
    statement, so that steps of the two threads interleave the way CPython
    interleaves them (attribute reads and writes are atomic under the
    interpreter lock).  A handler of the UI thread is one step: Tk runs
    handlers one after the other, and a handler shares with the workers
    only [is_running], [latest_frame] and [last_spoken_time], each of which
    it writes at most once.  The detector, the image conversions of the
    tick and the queueing of status updates are taken to return normally;
    [on_close], which stops and then destroys the window, is not among the
    steps. *)

From Stdlib Require Import List String Ascii Bool Arith NArith ZArith QArith Lia Lqa.
Import ListNotations.

Local Open Scope list_scope.

(** ** Python strings *)

Module PyStr.

(** A Python [str] is a sequence of Unicode code points. *)
Definition t : Type := list N.

(** A literal of the source, code point by code point. *)
Definition lit (s : string) : t := map N_of_ascii (list_ascii_of_string s).

(** [str.isspace] on one code point: the table of CPython's
    [_PyUnicode_IsWhitespace]. *)
Definition isspace (c : N) : bool :=
  ((9 <=? c) && (c <=? 13) ||
   (28 <=? c) && (c <=? 32) ||
   (c =? 133) || (c =? 160) || (c =? 5760) ||
   (8192 <=? c) && (c <=? 8202) ||
   (c =? 8232) || (c =? 8233) || (c =? 8239) || (c =? 8287) ||
   (c =? 12288))%N.

Fixpoint lstrip (s : t) : t :=
  match s with
  | c :: s' => if isspace c then lstrip s' else s
  | [] => []
  end.

Definition rstrip (s : t) : t := rev (lstrip (rev s)).

(** [s.strip()] with no argument. *)
Definition strip (s : t) : t := rstrip (lstrip s).

(** The asterisk, the one character of the pattern of line 194. *)
Definition star : N := 42.

(** [s.replace] of the asterisk by the empty string: every occurrence of
    the one-character pattern is dropped. *)
Definition replace_star (s : t) : t := filter (fun c => negb (c =? star)%N) s.

End PyStr.

Definition pystr : Type := PyStr.t.

(* Literals stay folded in goals. *)
Arguments PyStr.lit : simpl never.

(** Line 194: [response.text], then [strip()], then the asterisks
    replaced by nothing. *)
Definition clean (text : pystr) : pystr := PyStr.replace_star (PyStr.strip text).

(** ** Data model *)

(** Tk widget states used by the two buttons. *)
Inductive tkstate := NORMAL | DISABLED.

(** The object [cv2.VideoCapture(0)] returns; [isOpened] is what its method
    of that name answers. *)
Record VideoCapture := { isOpened : bool }.

(** Why the [try] block of the advisory loop was left through [except]. *)
Inductive failure :=
| Timeout            (* the 20 s request timeout expired *)
| TransportError     (* the request could not be carried out *)
| MalformedResponse  (* [response.text] raised *)
| ConversionError.   (* the frame could not be converted *)

(** What [generate_content] does: it returns a response, whose [text] may or
    may not be readable, or it raises. *)
Inductive api_result :=
| Returned (text : option pystr)
| Raised (e : failure).

(** Threads of the process: Tk's main loop and the daemon threads made by
    [start_navigation], numbered in the order they were started. *)
Inductive thread := UI | Worker (i : nat).

Section App.

(** A raw camera image (a BGR array).  The program copies, converts and
    forwards frames and never mutates one it has stored, so a frame is a
    value of an arbitrary type. *)
Context {frame : Type}.

(** Program counter of one [run_gemini_assistant] thread; the line of the
    statement about to be executed. *)
Inductive wpc :=
| AtWhile                    (* 181: while self.is_running *)
| AtCheck                    (* 183: the 4 s and frame test *)
| AtStamp                    (* 184: self.last_spoken_time = time.time() *)
| AtAnalyzing                (* 186: status "Analyzing scene..." *)
| AtConvert                  (* 188: pil_image from self.latest_frame *)
| AtGenerate (img : frame)   (* 190: generate_content([nav_prompt, pil_image]) *)
| AtClean (text : option pystr)  (* 194: advice = response.text.strip()... *)
| AtCue (advice : pystr)     (* 196: status "AI Cue: ..." *)
| AtSpeak (advice : pystr)   (* 197: self.speak(advice) *)
| AtExcept (e : failure)     (* 200-201: the except block *)
| AtSleep                    (* 204: time.sleep(0.5) *)
| Exited.                    (* the loop was left, the thread is over *)

(** What the video label shows: the text of line 128, or the annotated
    rendering of a frame (lines 149-159). *)
Inductive video := CameraOff | Showing (f : frame).

(** Effects, in the order the program performs them. *)
Inductive event :=
| OpenCamera (ok : bool)        (* cv2.VideoCapture(0) *)
| Dialog (title : pystr)        (* messagebox.showerror *)
| ConfigStart (st : tkstate)    (* btn_start.config(state=...) *)
| ConfigStop (st : tkstate)     (* btn_stop.config(state=...) *)
| ConfigVideo (v : video)       (* video_label.config(...) *)
| ConfigStatus (text : pystr)   (* ai_status_label.config(text=...) *)
| After0 (text : pystr)         (* window.after(0, lambda ...) *)
| After20                       (* window.after(20, self.update_frame) *)
| Say (text : pystr)            (* tts_engine.say(text); runAndWait() *)
| Print (text : pystr)          (* print(...), the tag without the exception *)
| Spawn (i : nat)               (* threading.Thread(...).start() *)
| Read (r : option frame)       (* self.cap.read() *)
| Release                       (* self.cap.release() *)
| Stamp (t : Q)                 (* line 184 *)
| Request (img : frame)         (* generate_content(..., timeout 20) *)
| Sleep.                        (* time.sleep(0.5) *)

(** The state variables of [__init__], lines 37-41. *)
Record attrs := {
  is_running : bool;
  cap : option VideoCapture;
  latest_frame : option frame;
  ai_thread : option nat;
  last_spoken_time : Q
}.

(** The widgets of [setup_gui] that the handlers reconfigure. *)
Record widgets := {
  btn_start : tkstate;
  btn_stop : tkstate;
  video_label : video;
  ai_status_label : pystr
}.

(** Tk's pending [after] callbacks: the status updates queued with delay 0,
    oldest first, and the number of queued [update_frame] ticks. *)
Record tkloop := {
  after0 : list pystr;
  after20 : nat
}.

Record app := {
  self : attrs;
  gui : widgets;
  tk : tkloop;
  threads : list wpc;
  log : list (thread * event)
}.

(** *** Field updates *)

Definition with_self (f : attrs -> attrs) (s : app) : app :=
  {| self := f (self s); gui := gui s; tk := tk s;
     threads := threads s; log := log s |}.

Definition with_gui (f : widgets -> widgets) (s : app) : app :=
  {| self := self s; gui := f (gui s); tk := tk s;
     threads := threads s; log := log s |}.

Definition with_tk (f : tkloop -> tkloop) (s : app) : app :=
  {| self := self s; gui := gui s; tk := f (tk s);
     threads := threads s; log := log s |}.

Definition with_threads (f : list wpc -> list wpc) (s : app) : app :=
  {| self := self s; gui := gui s; tk := tk s;
     threads := f (threads s); log := log s |}.

(** Effects are appended: the log reads oldest first. *)
Definition emit (th : thread) (ev : event) (s : app) : app :=
  {| self := self s; gui := gui s; tk := tk s;
     threads := threads s; log := log s ++ [(th, ev)] |}.

Definition set_is_running (b : bool) (a : attrs) : attrs :=
  {| is_running := b; cap := cap a; latest_frame := latest_frame a;
     ai_thread := ai_thread a; last_spoken_time := last_spoken_time a |}.

Definition set_cap (c : option VideoCapture) (a : attrs) : attrs :=
  {| is_running := is_running a; cap := c; latest_frame := latest_frame a;
     ai_thread := ai_thread a; last_spoken_time := last_spoken_time a |}.

Definition set_latest_frame (f : option frame) (a : attrs) : attrs :=
  {| is_running := is_running a; cap := cap a; latest_frame := f;
     ai_thread := ai_thread a; last_spoken_time := last_spoken_time a |}.

Definition set_ai_thread (t : option nat) (a : attrs) : attrs :=
  {| is_running := is_running a; cap := cap a; latest_frame := latest_frame a;
     ai_thread := t; last_spoken_time := last_spoken_time a |}.

Definition set_last_spoken_time (t : Q) (a : attrs) : attrs :=
  {| is_running := is_running a; cap := cap a; latest_frame := latest_frame a;
     ai_thread := ai_thread a; last_spoken_time := t |}.

Definition set_btn_start (st : tkstate) (w : widgets) : widgets :=
  {| btn_start := st; btn_stop := btn_stop w;
     video_label := video_label w; ai_status_label := ai_status_label w |}.

Definition set_btn_stop (st : tkstate) (w : widgets) : widgets :=
  {| btn_start := btn_start w; btn_stop := st;
     video_label := video_label w; ai_status_label := ai_status_label w |}.

Definition set_video_label (v : video) (w : widgets) : widgets :=
  {| btn_start := btn_start w; btn_stop := btn_stop w;
     video_label := v; ai_status_label := ai_status_label w |}.

Definition set_ai_status_label (text : pystr) (w : widgets) : widgets :=
  {| btn_start := btn_start w; btn_stop := btn_stop w;
     video_label := video_label w; ai_status_label := text |}.

(** *** The object after [__init__] and [setup_gui] *)

Definition init : app :=
  {| self := {| is_running := false; cap := None; latest_frame := None;
                ai_thread := None; last_spoken_time := 0 |};
     gui := {| btn_start := NORMAL; btn_stop := DISABLED;
               video_label := CameraOff;
               ai_status_label := PyStr.lit "Standing by..." |};
     tk := {| after0 := []; after20 := 0 |};
     threads := [];
     log := [] |}.

(** ** Operations *)

(** [update_status_label], lines 214-217: the label is not touched; the
    update is queued for the main loop, from whichever thread calls. *)
Definition update_status_label (th : thread) (text : pystr) (s : app) : app :=
  emit th (After0 text)
    (with_tk (fun k => {| after0 := after0 k ++ [text];
                          after20 := after20 k |}) s).

(** [speak], lines 206-212.  [ok] tells whether the engine played the
    utterance without raising; the exception is printed and swallowed. *)
Definition speak (th : thread) (text : pystr) (ok : bool) (s : app) : app :=
  let s := emit th (Say text) s in
  if ok then s else emit th (Print (PyStr.lit "[TTS Error]")) s.

(** [update_frame], lines 139-162.  [r] is what [self.cap.read()] delivers
    on this tick: a frame, or nothing when [ret] is false. *)
Definition update_frame (r : option frame) (s : app) : app :=
  match is_running (self s), cap (self s) with
  | true, Some _ =>
      let s := emit UI (Read r) s in
      let s :=
        match r with
        | Some f =>
            let s := with_self (set_latest_frame (Some f)) s in
            let s := with_gui (set_video_label (Showing f)) s in
            emit UI (ConfigVideo (Showing f)) s
        | None => s
        end in
      emit UI After20
        (with_tk (fun k => {| after0 := after0 k;
                              after20 := S (after20 k) |}) s)
  | _, _ => s
  end.

(** [start_navigation], lines 91-112.  [opened] is the answer of
    [isOpened] on the freshly made capture object, [tts] the outcome of the
    announcement, [r] the first camera read. *)
Definition start_navigation (opened tts : bool) (r : option frame)
                            (s : app) : app :=
  if is_running (self s) then s else
  let s := emit UI (OpenCamera opened)
             (with_self (set_cap (Some {| isOpened := opened |})) s) in
  if negb opened then emit UI (Dialog (PyStr.lit "Webcam Error")) s else
  let s := with_self (set_is_running true) s in
  let s := emit UI (ConfigStart DISABLED)
             (with_gui (set_btn_start DISABLED) s) in
  let s := emit UI (ConfigStop NORMAL)
             (with_gui (set_btn_stop NORMAL) s) in
  let s := update_status_label UI (PyStr.lit "Activating systems...") s in
  let s := speak UI (PyStr.lit "Navigation system activated.") tts s in
  let i := List.length (threads s) in
  let s := with_self (set_ai_thread (Some i)) s in
  let s := emit UI (Spawn i) (with_threads (fun ts => ts ++ [AtWhile]) s) in
  update_frame r s.

(** [stop_navigation], lines 114-130. *)
Definition stop_navigation (tts : bool) (s : app) : app :=
  if negb (is_running (self s)) then s else
  let s := with_self (set_is_running false) s in
  let s := emit UI (ConfigStart NORMAL)
             (with_gui (set_btn_start NORMAL) s) in
  let s := emit UI (ConfigStop DISABLED)
             (with_gui (set_btn_stop DISABLED) s) in
  let s :=
    match cap (self s) with
    | Some _ => with_self (set_cap None) (emit UI Release s)
    | None => s
    end in
  let s := emit UI (ConfigVideo CameraOff)
             (with_gui (set_video_label CameraOff) s) in
  let s := update_status_label UI
             (PyStr.lit "System offline. Press Start to begin.") s in
  speak UI (PyStr.lit "Navigation system shutting down.") tts s.

(** The main loop runs the oldest queued status update: the lambda of line
    217 configures the label. *)
Definition run_after0 (s : app) : app :=
  match after0 (tk s) with
  | text :: rest =>
      let s := with_tk (fun k => {| after0 := rest;
                                    after20 := after20 k |}) s in
      emit UI (ConfigStatus text) (with_gui (set_ai_status_label text) s)
  | [] => s
  end.

(** The main loop runs one queued [update_frame] tick. *)
Definition run_after20 (r : option frame) (s : app) : app :=
  match after20 (tk s) with
  | S n =>
      update_frame r
        (with_tk (fun k => {| after0 := after0 k; after20 := n |}) s)
  | O => s
  end.

(** What the outside world supplies to one step of a worker thread: the
    reading of [time.time()], the outcome of the remote call, and whether
    the speech engine plays without raising.  Clock readings are seconds;
    the floats of the source are taken as the rationals they denote, and
    their difference as exact. *)
Record env := {
  now : Q;
  reply : api_result;
  tts_ok : bool
}.

(** Line 183, first conjunct: [time.time() - self.last_spoken_time > 4]. *)
Definition due (t last : Q) : bool := negb (Qle_bool (t - last) 4).

Definition is_some {A : Type} (o : option A) : bool :=
  match o with Some _ => true | None => false end.

(** One statement of [run_gemini_assistant], lines 181-204, executed by
    thread [Worker i] standing at [pc]. *)
Definition worker_step (i : nat) (e : env) (pc : wpc) (s : app) : wpc * app :=
  let me := Worker i in
  match pc with
  | AtWhile =>
      if is_running (self s) then (AtCheck, s) else (Exited, s)
  | AtCheck =>
      if due (now e) (last_spoken_time (self s))
         && is_some (latest_frame (self s))
      then (AtStamp, s) else (AtSleep, s)
  | AtStamp =>
      (AtAnalyzing,
       emit me (Stamp (now e)) (with_self (set_last_spoken_time (now e)) s))
  | AtAnalyzing =>
      (AtConvert, update_status_label me (PyStr.lit "Analyzing scene...") s)
  | AtConvert =>
      match latest_frame (self s) with
      | Some f => (AtGenerate f, s)
      | None => (AtExcept ConversionError, s)
      end
  | AtGenerate img =>
      let s := emit me (Request img) s in
      match reply e with
      | Returned text => (AtClean text, s)
      | Raised x => (AtExcept x, s)
      end
  | AtClean text =>
      match text with
      | Some t => (AtCue (clean t), s)
      | None => (AtExcept MalformedResponse, s)
      end
  | AtCue advice =>
      (AtSpeak advice,
       update_status_label me (PyStr.lit "AI Cue: " ++ advice) s)
  | AtSpeak advice =>
      (AtSleep, speak me advice (tts_ok e) s)
  | AtExcept x =>
      (AtSleep,
       update_status_label me
         (PyStr.lit "AI Error: Could not get navigation cue.")
         (emit me (Print (PyStr.lit "[Gemini Error]")) s))
  | AtSleep => (AtWhile, emit me Sleep s)
  | Exited => (Exited, s)
  end.

(** Replace entry [i] of the thread table. *)
Fixpoint set_nth {A : Type} (i : nat) (x : A) (l : list A) : list A :=
  match l, i with
  | [], _ => []
  | _ :: l', O => x :: l'
  | y :: l', S i' => y :: set_nth i' x l'
  end.

(** ** The process: interleaved steps of the threads *)

Inductive action :=
| Start (opened tts : bool) (r : option frame)  (* the Start button *)
| Stop (tts : bool)                             (* the Stop button *)
| Tick (r : option frame)                       (* a queued update_frame *)
| Idle                                          (* a queued status update *)
| Work (i : nat) (e : env).                     (* one statement of a worker *)

Definition step (a : action) (s : app) : app :=
  match a with
  | Start opened tts r => start_navigation opened tts r s
  | Stop tts => stop_navigation tts s
  | Tick r => run_after20 r s
  | Idle => run_after0 s
  | Work i e =>
      match nth_error (threads s) i with
      | Some pc =>
          let (pc', s') := worker_step i e pc s in
          with_threads (set_nth i pc') s'
      | None => s
      end
  end.

Fixpoint run (acts : list action) (s : app) : app :=
  match acts with
  | [] => s
  | a :: rest => run rest (step a s)
  end.

(** The main loop runs every status update that is queued. *)
Fixpoint drain_n (n : nat) (s : app) : app :=
  match n with
  | O => s
  | S n' => drain_n n' (run_after0 s)
  end.

Definition drain (s : app) : app := drain_n (List.length (after0 (tk s))) s.

(** Program counter of worker thread [i]. *)
Definition pc_of (i : nat) (s : app) : option wpc := nth_error (threads s) i.

(** ** Observations on the log *)

(** The times thread [Worker i] wrote into [last_spoken_time]. *)
Fixpoint stamps (i : nat) (l : list (thread * event)) : list Q :=
  match l with
  | (Worker j, Stamp t) :: l' =>
      if Nat.eqb i j then t :: stamps i l' else stamps i l'
  | _ :: l' => stamps i l'
  | [] => []
  end.

(** The times any thread wrote into [last_spoken_time]. *)
Fixpoint all_stamps (l : list (thread * event)) : list Q :=
  match l with
  | (_, Stamp t) :: l' => t :: all_stamps l'
  | _ :: l' => all_stamps l'
  | [] => []
  end.

(** Neighbours in a list of times are more than 4 seconds apart. *)
Fixpoint spaced (l : list Q) : Prop :=
  match l with
  | a :: (b :: _) as l' => 4 < b - a /\ spaced l'
  | _ => True
  end.

(** The readings of [time.time()] never go back: each worker step reads a
    time that is at least the one read before, [c] being the latest. *)
Fixpoint clock_mono (c : Q) (acts : list action) : Prop :=
  match acts with
  | Work _ e :: rest => c <= now e /\ clock_mono (now e) rest
  | _ :: rest => clock_mono c rest
  | [] => True
  end.

(** The last frame a camera read delivered, [d] when there is none. *)
Fixpoint last_captured (d : option frame) (l : list (thread * event))
  : option frame :=
  match l with
  | (_, Read (Some f)) :: l' => last_captured (Some f) l'
  | _ :: l' => last_captured d l'
  | [] => d
  end.

(** An action that cannot store a frame: no camera read of it succeeds. *)
Definition no_write (a : action) : bool :=
  match a with
  | Start _ _ (Some _) | Tick (Some _) => false
  | _ => true
  end.

Definition is_release (x : thread * event) : bool :=
  match x with (_, Release) => true | _ => false end.

Definition is_open_ok (x : thread * event) : bool :=
  match x with (_, OpenCamera true) => true | _ => false end.

Definition is_enable_start (x : thread * event) : bool :=
  match x with (_, ConfigStart NORMAL) => true | _ => false end.

(** How many entries of [l] satisfy [p]. *)
Definition count (p : thread * event -> bool) (l : list (thread * event))
  : nat := List.length (filter p l).

(** Index of the first entry of [l] that satisfies [p]. *)
Fixpoint position (p : thread * event -> bool) (l : list (thread * event))
  : option nat :=
  match l with
  | [] => None
  | x :: l' =>
      if p x then Some O
      else match position p l' with Some n => Some (S n) | None => None end
  end.

(** The blocking calls: speech playback and the remote request. *)
Definition blocking (ev : event) : bool :=
  match ev with
  | Say _ | Request _ => true
  | _ => false
  end.

(** What the UI thread is seen to do in the source: everything but the
    remote request, and of speech only the two announcements of the
    handlers (lines 105 and 130). *)
Definition ui_discipline (x : thread * event) : Prop :=
  match x with
  | (UI, Request _) => False
  | (UI, Say text) =>
      text = PyStr.lit "Navigation system activated." \/
      text = PyStr.lit "Navigation system shutting down."
  | _ => True
  end.

Definition thread_eqb (a b : thread) : bool :=
  match a, b with
  | UI, UI => true
  | Worker i, Worker j => Nat.eqb i j
  | _, _ => false
  end.

(** The texts thread [th] handed to the speech engine, oldest first. *)
Fixpoint said (th : thread) (l : list (thread * event)) : list pystr :=
  match l with
  | (th', Say text) :: l' =>
      if thread_eqb th th' then text :: said th l' else said th l'
  | _ :: l' => said th l'
  | [] => []
  end.

(** The entries a handler or step added when it took [s] to [s']. *)
Definition emitted (s s' : app) : list (thread * event) :=
  skipn (List.length (log s)) (log s').

(** In [l] the camera is released, and only later is the Start button
    enabled. *)
Definition released_before_enabled (l : list (thread * event)) : Prop :=
  exists n m, position is_release l = Some n /\
              position is_enable_start l = Some m /\ (n < m)%nat.

(** In [l] the Start button is enabled, and only later is the camera
    released. *)
Definition enabled_before_released (l : list (thread * event)) : Prop :=
  exists n m, position is_enable_start l = Some n /\
              position is_release l = Some m /\ (n < m)%nat.

(** While the session runs a camera handle is held, and the log has one
    release for every camera that opened, but for the one in use. *)
Definition camera_inv (s : app) : Prop :=
  (is_running (self s) = true -> cap (self s) <> None) /\
  (count is_release (log s) + (if is_running (self s) then 1 else 0)
   = count is_open_ok (log s))%nat.

(** The attribute holds the frame of the latest camera read that
    succeeded. *)
Definition frame_inv (s : app) : Prop :=
  latest_frame (self s) = last_captured None (log s).

(** What is known of the timestamps when the clock last read [c]: no stamp
    is later than [c] or than [last_spoken_time]; a worker that passed the
    test of line 183 is more than 4 seconds past its own stamps; and its
    stamps are spaced. *)
Definition stamp_inv (c : Q) (i : nat) (s : app) : Prop :=
  (forall t, In t (all_stamps (log s)) -> t <= c) /\
  (forall t, In t (all_stamps (log s)) -> t <= last_spoken_time (self s)) /\
  (pc_of i s = Some AtStamp ->
   forall t, In t (stamps i (log s)) -> 4 < c - t) /\
  spaced (stamps i (log s)).

(** Case analysis on the tests a handler or a worker statement makes. *)
Ltac split_tests :=
  repeat match goal with
         | |- context [match ?x with _ => _ end] => destruct x eqn:?
         | |- context [if ?x then _ else _] => destruct x eqn:?
         end.

Ltac unfold_ops :=
  unfold start_navigation, stop_navigation, run_after20, run_after0,
    update_frame, speak, update_status_label.

(** The status text of the except block, line 201. *)
Definition ai_error : pystr :=
  PyStr.lit "AI Error: Could not get navigation cue.".

(** An outcome of the remote call that leaves the [try] block through
    [except]: the call raises (timeout, transport), or the response has no
    readable text. *)
Definition failed (r : api_result) : bool :=
  match r with
  | Returned (Some _) => false
  | Returned None | Raised _ => true
  end.

(** How many statements the worker runs from the call to the end of the
    iteration when the call fails: lines 190, 200-201 and 204, and line 194
    as well when it is [response.text] that raises. *)
Definition failure_path (r : api_result) : nat :=
  match r with
  | Raised _ => 3
  | Returned _ => 4
  end.

(** The state in which [start_navigation] calls [update_frame]. *)
Definition started (tts : bool) (s : app) : app :=
  {| self := set_ai_thread (Some (List.length (threads s)))
               (set_is_running true
                  (set_cap (Some {| isOpened := true |}) (self s)));
     gui := set_btn_stop NORMAL (set_btn_start DISABLED (gui s));
     tk := {| after0 := after0 (tk s) ++ [PyStr.lit "Activating systems..."];
              after20 := after20 (tk s) |};
     threads := threads s ++ [AtWhile];
     log := log s ++
       [(UI, OpenCamera true); (UI, ConfigStart DISABLED);
        (UI, ConfigStop NORMAL);
        (UI, After0 (PyStr.lit "Activating systems..."));
        (UI, Say (PyStr.lit "Navigation system activated."))] ++
       (if tts then [] else [(UI, Print (PyStr.lit "[TTS Error]"))]) ++
       [(UI, Spawn (List.length (threads s)))] |}.

(** The state in which a queued tick calls [update_frame]. *)
Definition dequeued (n : nat) (s : app) : app :=
  with_tk (fun k => {| after0 := after0 k; after20 := n |}) s.

(** *** A sample session

    One Start with a working camera whose first read delivers [f], then [n]
    statements of the worker, all at clock reading 100 and with the remote
    model answering the first example of the prompt. *)

Definition env_at (t : Q) (r : api_result) : env :=
  {| now := t; reply := r; tts_ok := true |}.

Definition sample_reply : api_result :=
  Returned (Some (PyStr.lit "Clear path ahead. Walk forward.")).

Definition sample_acts (f : frame) (n : nat) : list action :=
  Start true true (Some f) :: repeat (Work 0 (env_at 100 sample_reply)) n.

Definition sample (f : frame) (n : nat) : app := run (sample_acts f n) init.

(** No entry of [l] is a blocking call made on the UI thread. *)
Definition ui_never_blocks (l : list (thread * event)) : Prop :=
  Forall (fun x => match x with
                   | (UI, ev) => blocking ev = false
                   | _ => True
                   end) l.

(** ** Further observations *)

Definition is_spawn (x : thread * event) : bool :=
  match x with (_, Spawn _) => true | _ => false end.

Definition is_read (x : thread * event) : bool :=
  match x with (_, Read _) => true | _ => false end.

(** The calls that reconfigure a widget. *)
Definition touches_widget (ev : event) : bool :=
  match ev with
  | ConfigStart _ | ConfigStop _ | ConfigVideo _ | ConfigStatus _ => true
  | _ => false
  end.

(** Every widget call in [l] is made by the UI thread. *)
Definition widgets_by_ui (l : list (thread * event)) : Prop :=
  Forall (fun x => touches_widget (snd x) = true -> fst x = UI) l.

(** The frames the camera delivered, oldest first. *)
Fixpoint captured (l : list (thread * event)) : list frame :=
  match l with
  | (_, Read (Some f)) :: l' => f :: captured l'
  | _ :: l' => captured l'
  | [] => []
  end.

(** The frames sent to the remote model, oldest first. *)
Fixpoint requested (l : list (thread * event)) : list frame :=
  match l with
  | (_, Request f) :: l' => f :: requested l'
  | _ :: l' => requested l'
  | [] => []
  end.

(** How many statements a worker at [pc] runs at most before it leaves its
    loop, once [is_running] is false. *)
Definition wind_down (pc : wpc) : nat :=
  match pc with
  | Exited => 0
  | AtWhile => 1
  | AtSleep => 2
  | AtSpeak _ | AtExcept _ => 3
  | AtCue _ => 4
  | AtClean _ => 5
  | AtGenerate _ => 6
  | AtConvert => 7
  | AtAnalyzing => 8
  | AtStamp => 9
  | AtCheck => 10
  end.

(** The statements between the test of line 183 and the snapshot of line
    188, which rely on the frame that test saw. *)
Definition awaits_snapshot (pc : wpc) : bool :=
  match pc with
  | AtStamp | AtAnalyzing | AtConvert => true
  | _ => false
  end.

(** An action of the UI thread. *)
Definition by_ui (a : action) : bool :=
  match a with Work _ _ => false | _ => true end.

(** [on_close], lines 132-136: the session is stopped and
    [window.destroy] is queued; [destroy_after] is the delay in
    milliseconds. *)
Record closing := {
  residue : app;
  destroy_after : nat
}.

Definition on_close (tts : bool) (s : app) : closing :=
  {| residue := stop_navigation tts s; destroy_after := 200 |}.

(** The buttons and the video label as the handlers leave them. *)
Definition gui_inv (s : app) : Prop :=
  btn_start (gui s) = (if is_running (self s) then DISABLED else NORMAL) /\
  btn_stop (gui s) = (if is_running (self s) then NORMAL else DISABLED) /\
  (is_running (self s) = false -> video_label (gui s) = CameraOff).

(** The camera handle as the handlers leave it. *)
Definition handle_inv (s : app) : Prop :=
  if is_running (self s)
  then cap (self s) = Some {| isOpened := true |}
  else cap (self s) = None \/ cap (self s) = Some {| isOpened := false |}.

(** One worker thread for each camera that opened. *)
Definition threads_inv (s : app) : Prop :=
  List.length (threads s) = count is_open_ok (log s) /\
  count is_spawn (log s) = count is_open_ok (log s) /\
  ai_thread (self s)
  = match List.length (threads s) with
    | O => None
    | S n => Some n
    end.

(** A worker past the test of line 183 still finds a frame. *)
Definition snapshot_inv (s : app) : Prop :=
  forall i pc, pc_of i s = Some pc -> awaits_snapshot pc = true ->
               latest_frame (self s) <> None.

(** Frames held or in flight came from the camera. *)
Definition provenance_inv (s : app) : Prop :=
  (forall f, latest_frame (self s) = Some f -> In f (captured (log s))) /\
  (forall i f, pc_of i s = Some (AtGenerate f) -> In f (captured (log s))) /\
  (forall f, In f (requested (log s)) -> In f (captured (log s))).

(** Every timestamp in the log was written by a worker thread that
    exists. *)
Definition stamps_owned (s : app) : Prop :=
  Forall (fun x => match x with
                   | (Worker j, Stamp _) => (j < List.length (threads s))%nat
                   | (UI, Stamp _) => False
                   | _ => True
                   end) (log s).

(** * Properties *)

(** ** Python strings *)

Example clean_plain :
  clean (PyStr.lit "Clear path ahead. Walk forward.")
  = PyStr.lit "Clear path ahead. Walk forward.".
Proof. reflexivity. Qed.

Example clean_markup :
  clean (PyStr.lit "  **Stairs ahead.** Stop.
")
  = PyStr.lit "Stairs ahead. Stop.".
Proof. reflexivity. Qed.

(** The asterisks go after the whitespace: what they enclosed may then
    begin or end with a blank. *)
Example clean_order :
  clean (PyStr.lit "* Stop *") = PyStr.lit " Stop ".
Proof. reflexivity. Qed.

Lemma lstrip_split (s : pystr) :
  exists l, s = l ++ PyStr.lstrip s /\ forallb PyStr.isspace l = true.
Proof.
  induction s as [|c s IH]; simpl.
  - exists []. split; reflexivity.
  - destruct (PyStr.isspace c) eqn:Hc.
    + destruct IH as (l & Hl & Hsp). exists (c :: l). split.
      * simpl. f_equal. exact Hl.
      * simpl. rewrite Hc. exact Hsp.
    + exists []. split; reflexivity.
Qed.

Lemma lstrip_head (s : pystr) (c : N) :
  hd_error (PyStr.lstrip s) = Some c -> PyStr.isspace c = false.
Proof.
  induction s as [|d s IH]; simpl; [discriminate|].
  destruct (PyStr.isspace d) eqn:Hd; [exact IH|].
  simpl. intros H. injection H as <-. exact Hd.
Qed.

Lemma forallb_rev {A : Type} (p : A -> bool) (l : list A) :
  forallb p (rev l) = forallb p l.
Proof.
  induction l as [|x l IH]; simpl; [reflexivity|].
  rewrite forallb_app, IH. simpl. rewrite andb_true_r. apply andb_comm.
Qed.

Lemma rstrip_split (s : pystr) :
  exists r, s = PyStr.rstrip s ++ r /\ forallb PyStr.isspace r = true.
Proof.
  unfold PyStr.rstrip.
  destruct (lstrip_split (rev s)) as (l & Hl & Hsp).
  exists (rev l). split.
  - rewrite <- rev_app_distr, <- Hl, rev_involutive. reflexivity.
  - rewrite forallb_rev. exact Hsp.
Qed.

Lemma rstrip_last (s : pystr) (c : N) :
  hd_error (rev (PyStr.rstrip s)) = Some c -> PyStr.isspace c = false.
Proof.
  unfold PyStr.rstrip. rewrite rev_involutive. apply lstrip_head.
Qed.

(** [strip] removes a run of whitespace at either end and nothing else, and
    what is left neither begins nor ends with whitespace. *)
Lemma strip_spec (s : pystr) :
  (exists l r, s = l ++ PyStr.strip s ++ r /\
               forallb PyStr.isspace l = true /\
               forallb PyStr.isspace r = true) /\
  (forall c, hd_error (PyStr.strip s) = Some c -> PyStr.isspace c = false) /\
  (forall c, hd_error (rev (PyStr.strip s)) = Some c ->
             PyStr.isspace c = false).
Proof.
  unfold PyStr.strip. split; [|split].
  - destruct (lstrip_split s) as (l & Hl & Hls).
    destruct (rstrip_split (PyStr.lstrip s)) as (r & Hr & Hrs).
    exists l, r. split; [|split]; try assumption.
    rewrite <- Hr. exact Hl.
  - intros c Hc.
    destruct (rstrip_split (PyStr.lstrip s)) as (r & Hr & _).
    apply (lstrip_head s). rewrite Hr.
    destruct (PyStr.rstrip (PyStr.lstrip s)); [discriminate|exact Hc].
  - apply rstrip_last.
Qed.

Lemma replace_star_no_star (s : pystr) : ~ In PyStr.star (PyStr.replace_star s).
Proof.
  unfold PyStr.replace_star. intros H. apply filter_In in H.
  destruct H as [_ H]. rewrite N.eqb_refl in H. discriminate.
Qed.

(** Characters other than the asterisk are kept, in order and number. *)
Lemma replace_star_keeps (s : pystr) (c : N) :
  c <> PyStr.star ->
  filter (N.eqb c) (PyStr.replace_star s) = filter (N.eqb c) s.
Proof.
  intros Hc. unfold PyStr.replace_star.
  induction s as [|d s IH]; simpl; [reflexivity|].
  destruct (N.eqb_spec d PyStr.star) as [->|Hd]; simpl.
  - destruct (N.eqb_spec c PyStr.star); [contradiction|exact IH].
  - destruct (N.eqb c d); [f_equal|]; exact IH.
Qed.

(** ** Elementary facts on the operations *)

Lemma app_ext (a b : app) :
  self a = self b -> gui a = gui b -> tk a = tk b ->
  threads a = threads b -> log a = log b -> a = b.
Proof. destruct a, b; simpl; intros; subst; reflexivity. Qed.

Lemma threads_worker_step i e pc s :
  threads (snd (worker_step i e pc s)) = threads s.
Proof.
  destruct pc; simpl; unfold speak;
    repeat match goal with
           | |- context [match ?x with _ => _ end] => destruct x
           | |- context [if ?x then _ else _] => destruct x
           end; reflexivity.
Qed.

Lemma nth_error_set_nth_eq {A : Type} (l : list A) i x y :
  nth_error l i = Some y -> nth_error (set_nth i x l) i = Some x.
Proof.
  revert i. induction l as [|z l IH]; intros [|i]; simpl; try discriminate.
  - reflexivity.
  - apply IH.
Qed.

Lemma nth_error_set_nth_neq {A : Type} (l : list A) i j x :
  i <> j -> nth_error (set_nth j x l) i = nth_error l i.
Proof.
  revert i j. induction l as [|z l IH]; intros [|i] [|j] H; simpl;
    try reflexivity.
  - contradiction.
  - apply IH. intros ->. apply H. reflexivity.
Qed.

(** A step of worker [i] standing at [pc] is that statement, and moves the
    program counter of [i]. *)
Lemma step_work i e pc s :
  pc_of i s = Some pc ->
  step (Work i e) s
  = with_threads (set_nth i (fst (worker_step i e pc s)))
                 (snd (worker_step i e pc s)).
Proof.
  unfold pc_of. intros H. simpl. rewrite H.
  destruct (worker_step i e pc s). reflexivity.
Qed.

Lemma pc_of_step_work i e pc s :
  pc_of i s = Some pc ->
  pc_of i (step (Work i e) s) = Some (fst (worker_step i e pc s)).
Proof.
  intros H. rewrite (step_work i e pc s H). unfold pc_of in *. simpl.
  rewrite threads_worker_step. eapply nth_error_set_nth_eq. exact H.
Qed.


Lemma last_cons_any {A : Type} (x : A) (l : list A) (d d' : A) :
  last (x :: l) d = last (x :: l) d'.
Proof.
  revert x. induction l as [|y l IH]; intros x; [reflexivity|].
  change (last (y :: l) d = last (y :: l) d'). apply IH.
Qed.

Lemma drain_n_label (q : list pystr) (s : app) :
  after0 (tk s) = q ->
  ai_status_label (gui (drain_n (List.length q) s))
  = last q (ai_status_label (gui s)) /\
  after0 (tk (drain_n (List.length q) s)) = [].
Proof.
  revert s. induction q as [|text q IH]; intros s Hq; simpl.
  - split; [reflexivity|exact Hq].
  - unfold run_after0. rewrite Hq.
    match goal with
    | |- context [drain_n _ ?s1] => destruct (IH s1 eq_refl) as [IH1 IH2]
    end.
    split; [|exact IH2]. rewrite IH1. simpl.
    destruct q as [|p q]; [reflexivity|]. apply last_cons_any.
Qed.

(** Once the main loop has run the queued updates, the label shows the
    update queued last. *)
Lemma drain_label (s : app) :
  ai_status_label (gui (drain s))
  = last (after0 (tk s)) (ai_status_label (gui s)).
Proof. unfold drain. apply drain_n_label. reflexivity. Qed.

(** The four statements of the success path, lines 190-197, run by worker
    [i] with nothing in between. *)
Lemma success_path (s : app) (i : nat) (img : frame) (text : pystr)
      (e1 e2 e3 e4 : env) :
  pc_of i s = Some (AtGenerate img) ->
  reply e1 = Returned (Some text) ->
  let s' := run [Work i e1; Work i e2; Work i e3; Work i e4] s in
  pc_of i s' = Some AtSleep /\
  self s' = self s /\ gui s' = gui s /\
  tk s' = {| after0 := after0 (tk s) ++ [PyStr.lit "AI Cue: " ++ clean text];
             after20 := after20 (tk s) |} /\
  log s' = log s ++
    [(Worker i, Request img);
     (Worker i, After0 (PyStr.lit "AI Cue: " ++ clean text));
     (Worker i, Say (clean text))] ++
    (if tts_ok e4 then [] else [(Worker i, Print (PyStr.lit "[TTS Error]"))]).
Proof.
  intros Hpc Hr. cbn [run].
  pose proof (pc_of_step_work i e1 _ s Hpc) as H1.
  rewrite (step_work i e1 _ s Hpc) in *.
  cbn [worker_step] in *. rewrite Hr in *. cbn [fst snd] in *.
  pose proof (pc_of_step_work i e2 _ _ H1) as H2.
  rewrite (step_work i e2 _ _ H1) in *.
  cbn [worker_step fst snd] in *.
  pose proof (pc_of_step_work i e3 _ _ H2) as H3.
  rewrite (step_work i e3 _ _ H2) in *.
  cbn [worker_step fst snd] in *.
  pose proof (pc_of_step_work i e4 _ _ H3) as H4.
  rewrite (step_work i e4 _ _ H3) in *.
  cbn [worker_step fst snd] in *.
  split; [exact H4|].
  unfold speak. destruct (tts_ok e4); simpl;
    repeat split; rewrite <- ?app_assoc; reflexivity.
Qed.


Lemma said_app th l1 l2 : said th (l1 ++ l2) = said th l1 ++ said th l2.
Proof.
  induction l1 as [|[th' ev] l1 IH]; simpl; [reflexivity|].
  destruct ev; try exact IH.
  destruct (thread_eqb th th'); simpl; [f_equal|]; exact IH.
Qed.

(** C1: on a successful advisory call (lines 190-197) the returned text has
    its surrounding whitespace stripped and then its asterisks removed; the
    status update that is published is exactly "AI Cue: " followed by the
    cleaned text, so that this is what the label shows once the main loop
    has run the queued updates; and the speech engine is handed exactly the
    cleaned text.  For the reply "Clear path ahead. Walk forward." the label
    reads "AI Cue: Clear path ahead. Walk forward." and that sentence is
    what is spoken. *)
Theorem advisory_success_cue
        (s : app) (i : nat) (img : frame) (text : pystr) (e1 e2 e3 e4 : env) :
  pc_of i s = Some (AtGenerate img) ->
  reply e1 = Returned (Some text) ->
  let s' := run [Work i e1; Work i e2; Work i e3; Work i e4] s in
  let advice := clean text in
  (exists l m r,
      text = l ++ m ++ r /\
      forallb PyStr.isspace l = true /\ forallb PyStr.isspace r = true /\
      (forall c, hd_error m = Some c -> PyStr.isspace c = false) /\
      (forall c, hd_error (rev m) = Some c -> PyStr.isspace c = false) /\
      advice = PyStr.replace_star m) /\
  ~ In PyStr.star advice /\
  (forall c, c <> PyStr.star ->
     filter (N.eqb c) advice = filter (N.eqb c) (PyStr.strip text)) /\
  after0 (tk s') = after0 (tk s) ++ [PyStr.lit "AI Cue: " ++ advice] /\
  ai_status_label (gui (drain s')) = PyStr.lit "AI Cue: " ++ advice /\
  said (Worker i) (log s') = said (Worker i) (log s) ++ [advice] /\
  (text = PyStr.lit "Clear path ahead. Walk forward." ->
   ai_status_label (gui (drain s'))
   = PyStr.lit "AI Cue: Clear path ahead. Walk forward." /\
   said (Worker i) (log s')
   = said (Worker i) (log s) ++ [PyStr.lit "Clear path ahead. Walk forward."]).
Proof.
  intros Hpc Hr s' advice.
  destruct (success_path s i img text e1 e2 e3 e4 Hpc Hr)
    as (_ & _ & Hgui & Htk & Hlog).
  fold s' in Hgui, Htk, Hlog.
  assert (Hq : after0 (tk s') = after0 (tk s) ++ [PyStr.lit "AI Cue: " ++ advice])
    by (rewrite Htk; reflexivity).
  assert (Hlabel : ai_status_label (gui (drain s'))
                   = PyStr.lit "AI Cue: " ++ advice).
  { rewrite drain_label, Hq. apply last_last. }
  assert (Hsaid : said (Worker i) (log s')
                  = said (Worker i) (log s) ++ [advice]).
  { rewrite Hlog, !said_app. f_equal. simpl. rewrite Nat.eqb_refl.
    destruct (tts_ok e4); reflexivity. }
  destruct (strip_spec text) as ((l & r & Hsplit & Hl & Hr') & Hhd & Hlast).
  split; [|split; [|split; [|split; [|split; [|split]]]]].
  - exists l, (PyStr.strip text), r. repeat split; assumption.
  - apply replace_star_no_star.
  - intros c Hc. apply replace_star_keeps. exact Hc.
  - exact Hq.
  - exact Hlabel.
  - exact Hsaid.
  - intros ->. split; [exact Hlabel|exact Hsaid].
Qed.


(** ** The Stop and Start handlers *)

Lemma emitted_app s s' new : log s' = log s ++ new -> emitted s s' = new.
Proof.
  intros H. unfold emitted. rewrite H.
  rewrite skipn_app, skipn_all, Nat.sub_diag. reflexivity.
Qed.

(** What [stop_navigation] does to a running session that holds a camera. *)
Lemma stop_running (tts : bool) (s : app) (c : VideoCapture) :
  is_running (self s) = true ->
  cap (self s) = Some c ->
  stop_navigation tts s =
  {| self := set_cap None (set_is_running false (self s));
     gui := set_video_label CameraOff
              (set_btn_stop DISABLED (set_btn_start NORMAL (gui s)));
     tk := {| after0 := after0 (tk s)
                ++ [PyStr.lit "System offline. Press Start to begin."];
              after20 := after20 (tk s) |};
     threads := threads s;
     log := log s ++
       [(UI, ConfigStart NORMAL); (UI, ConfigStop DISABLED); (UI, Release);
        (UI, ConfigVideo CameraOff);
        (UI, After0 (PyStr.lit "System offline. Press Start to begin."));
        (UI, Say (PyStr.lit "Navigation system shutting down."))] ++
       (if tts then [] else [(UI, Print (PyStr.lit "[TTS Error]"))]) |}.
Proof.
  intros Hrun Hcap. unfold stop_navigation. rewrite Hrun. simpl.
  rewrite Hcap. unfold speak.
  destruct tts; apply app_ext; simpl; rewrite <- ?app_assoc; reflexivity.
Qed.

Lemma stop_not_running (tts : bool) (s : app) :
  is_running (self s) = false -> stop_navigation tts s = s.
Proof. intros H. unfold stop_navigation. rewrite H. reflexivity. Qed.

Lemma stop_is_running (tts : bool) (s : app) :
  is_running (self (stop_navigation tts s)) = false.
Proof.
  unfold stop_navigation.
  destruct (is_running (self s)) eqn:Hrun; simpl; [|exact Hrun].
  unfold speak. destruct (cap (self s)), tts; reflexivity.
Qed.

(** What [start_navigation] does when the camera does not open. *)
Lemma start_unopened (tts : bool) (r : option frame) (s : app) :
  is_running (self s) = false ->
  start_navigation false tts r s =
  {| self := set_cap (Some {| isOpened := false |}) (self s);
     gui := gui s; tk := tk s; threads := threads s;
     log := log s ++ [(UI, OpenCamera false);
                      (UI, Dialog (PyStr.lit "Webcam Error"))] |}.
Proof.
  intros Hrun. unfold start_navigation. rewrite Hrun. simpl.
  apply app_ext; simpl; rewrite <- ?app_assoc; reflexivity.
Qed.

(** What [start_navigation] does when the camera opens. *)
Lemma start_opened (tts : bool) (r : option frame) (s : app) :
  is_running (self s) = false ->
  let s' := start_navigation true tts r s in
  is_running (self s') = true /\
  cap (self s') = Some {| isOpened := true |} /\
  latest_frame (self s')
  = match r with Some f => Some f | None => latest_frame (self s) end /\
  last_spoken_time (self s') = last_spoken_time (self s) /\
  ai_thread (self s') = Some (List.length (threads s)) /\
  threads s' = threads s ++ [AtWhile].
Proof.
  intros Hrun. unfold start_navigation. rewrite Hrun. simpl.
  unfold speak, update_frame. destruct tts, r; simpl; repeat split.
Qed.


(** C7 (amended): in [stop_navigation] the Start button is set back to
    enabled first (line 119) and the camera is released after that (line
    124); both happen inside the one handler, which ends with the Start
    button enabled and the camera handle cleared.  This holds whatever the
    worker thread is doing, also in the middle of a remote call. *)
Theorem stop_enables_start_then_releases
        (tts : bool) (s : app) (c : VideoCapture) :
  is_running (self s) = true ->
  cap (self s) = Some c ->
  let s' := stop_navigation tts s in
  emitted s s' =
    [(UI, ConfigStart NORMAL); (UI, ConfigStop DISABLED); (UI, Release);
     (UI, ConfigVideo CameraOff);
     (UI, After0 (PyStr.lit "System offline. Press Start to begin."));
     (UI, Say (PyStr.lit "Navigation system shutting down."))] ++
    (if tts then [] else [(UI, Print (PyStr.lit "[TTS Error]"))]) /\
  enabled_before_released (emitted s s') /\
  btn_start (gui s') = NORMAL /\ btn_stop (gui s') = DISABLED /\
  cap (self s') = None /\
  threads s' = threads s.
Proof.
  intros Hrun Hcap s'. subst s'.
  rewrite (stop_running tts s c Hrun Hcap).
  erewrite emitted_app by (simpl; reflexivity).
  split; [reflexivity|]. split; [|repeat split].
  exists 0%nat, 2%nat. repeat split. lia.
Qed.

(** C6 (amended): when [start_navigation] is invoked on a stopped
    application and the camera does not open, the error dialog is shown,
    [is_running] stays false, no thread is started, no tick is scheduled and
    no widget changes; the one attribute that changes is [cap], which now
    holds the capture object that failed to open. *)
Theorem start_without_camera (tts : bool) (r : option frame) (s : app) :
  is_running (self s) = false ->
  let s' := start_navigation false tts r s in
  emitted s s' = [(UI, OpenCamera false);
                  (UI, Dialog (PyStr.lit "Webcam Error"))] /\
  is_running (self s') = false /\
  threads s' = threads s /\
  gui s' = gui s /\ tk s' = tk s /\
  latest_frame (self s') = latest_frame (self s) /\
  ai_thread (self s') = ai_thread (self s) /\
  last_spoken_time (self s') = last_spoken_time (self s) /\
  cap (self s') = Some {| isOpened := false |}.
Proof.
  intros Hrun s'. subst s'. rewrite (start_unopened tts r s Hrun).
  erewrite emitted_app by (simpl; reflexivity). simpl. repeat split. exact Hrun.
Qed.

(** C3 (amended): [stop_navigation] sets [is_running] to false, clears the
    camera handle and puts the buttons and the video label back; it leaves
    [latest_frame], [last_spoken_time], [ai_thread] and the worker threads
    as they are.  The next [start_navigation] therefore begins with the
    [last_spoken_time] of the previous session, and with its [latest_frame]
    until a camera read succeeds. *)
Theorem stop_keeps_frame_and_timestamp
        (tts tts' : bool) (r : option frame) (s : app) (c : VideoCapture) :
  is_running (self s) = true ->
  cap (self s) = Some c ->
  let s1 := stop_navigation tts s in
  let s2 := start_navigation true tts' r s1 in
  (is_running (self s1) = false /\ cap (self s1) = None /\
   btn_start (gui s1) = NORMAL /\ btn_stop (gui s1) = DISABLED /\
   video_label (gui s1) = CameraOff) /\
  (latest_frame (self s1) = latest_frame (self s) /\
   last_spoken_time (self s1) = last_spoken_time (self s) /\
   ai_thread (self s1) = ai_thread (self s) /\
   threads s1 = threads s) /\
  (is_running (self s2) = true /\
   last_spoken_time (self s2) = last_spoken_time (self s) /\
   latest_frame (self s2)
   = match r with Some f => Some f | None => latest_frame (self s) end).
Proof.
  intros Hrun Hcap s1 s2.
  assert (H1 : is_running (self s1) = false) by apply stop_is_running.
  destruct (start_opened tts' r s1 H1) as (Ha & _ & Hb & Hc & _).
  fold s2 in Ha, Hb, Hc. subst s2.
  assert (Hs1 : s1 = stop_navigation tts s) by reflexivity.
  rewrite (stop_running tts s c Hrun Hcap) in Hs1.
  rewrite Ha, Hb, Hc. rewrite Hs1. simpl. repeat split.
Qed.


(** ** Executions *)

Lemma run_app acts1 acts2 s : run (acts1 ++ acts2) s = run acts2 (run acts1 s).
Proof.
  revert s. induction acts1 as [|a acts1 IH]; intros s; simpl;
    [reflexivity|apply IH].
Qed.

(** A property kept by every step holds along every execution. *)
Lemma run_invariant (P : app -> Prop) :
  (forall a s, P s -> P (step a s)) ->
  forall acts s, P s -> P (run acts s).
Proof.
  intros Hstep acts. induction acts as [|a acts IH]; intros s Hs; simpl;
    [exact Hs|].
  apply IH, Hstep, Hs.
Qed.

Lemma count_app p l1 l2 : count p (l1 ++ l2) = (count p l1 + count p l2)%nat.
Proof. unfold count. rewrite filter_app, length_app. reflexivity. Qed.


(** *** The handlers, case by case *)

Lemma start_running opened tts r s :
  is_running (self s) = true -> start_navigation opened tts r s = s.
Proof. intros H. unfold start_navigation. rewrite H. reflexivity. Qed.

Lemma update_frame_idle r s :
  is_running (self s) && is_some (cap (self s)) = false ->
  update_frame r s = s.
Proof.
  unfold update_frame.
  destruct (is_running (self s)), (cap (self s)); simpl;
    intros H; reflexivity || discriminate.
Qed.

Lemma update_frame_read r s :
  is_running (self s) && is_some (cap (self s)) = true ->
  update_frame r s =
  {| self := match r with
             | Some f => set_latest_frame (Some f) (self s)
             | None => self s
             end;
     gui := match r with
            | Some f => set_video_label (Showing f) (gui s)
            | None => gui s
            end;
     tk := {| after0 := after0 (tk s); after20 := S (after20 (tk s)) |};
     threads := threads s;
     log := log s ++
       (UI, Read r)
       :: match r with
          | Some f => [(UI, ConfigVideo (Showing f))]
          | None => []
          end ++ [(UI, After20)] |}.
Proof.
  unfold update_frame.
  destruct (is_running (self s)), (cap (self s)); simpl;
    intros H; try discriminate.
  destruct r; apply app_ext; simpl; rewrite <- ?app_assoc; reflexivity.
Qed.

Lemma start_opened_eq tts r s :
  is_running (self s) = false ->
  start_navigation true tts r s = update_frame r (started tts s).
Proof.
  intros H. unfold start_navigation. rewrite H. simpl. f_equal.
  unfold speak. destruct tts; apply app_ext; simpl;
    rewrite <- ?app_assoc; reflexivity.
Qed.

Lemma started_ready tts s :
  is_running (self (started tts s)) && is_some (cap (self (started tts s)))
  = true.
Proof. reflexivity. Qed.

Lemma run_after0_eq s :
  run_after0 s =
  match after0 (tk s) with
  | text :: rest =>
      {| self := self s; gui := set_ai_status_label text (gui s);
         tk := {| after0 := rest; after20 := after20 (tk s) |};
         threads := threads s;
         log := log s ++ [(UI, ConfigStatus text)] |}
  | [] => s
  end.
Proof. unfold run_after0. destruct (after0 (tk s)); reflexivity. Qed.

Lemma run_after20_eq r s :
  run_after20 r s =
  match after20 (tk s) with
  | S n => update_frame r (dequeued n s)
  | O => s
  end.
Proof. reflexivity. Qed.


Lemma stop_running_eq (tts : bool) (s : app) :
  is_running (self s) = true ->
  stop_navigation tts s =
  {| self := set_cap None (set_is_running false (self s));
     gui := set_video_label CameraOff
              (set_btn_stop DISABLED (set_btn_start NORMAL (gui s)));
     tk := {| after0 := after0 (tk s)
                ++ [PyStr.lit "System offline. Press Start to begin."];
              after20 := after20 (tk s) |};
     threads := threads s;
     log := log s ++
       [(UI, ConfigStart NORMAL); (UI, ConfigStop DISABLED)] ++
       (if is_some (cap (self s)) then [(UI, Release)] else []) ++
       [(UI, ConfigVideo CameraOff);
        (UI, After0 (PyStr.lit "System offline. Press Start to begin."));
        (UI, Say (PyStr.lit "Navigation system shutting down."))] ++
       (if tts then [] else [(UI, Print (PyStr.lit "[TTS Error]"))]) |}.
Proof.
  intros Hrun. unfold stop_navigation. rewrite Hrun. simpl.
  unfold speak.
  destruct (cap (self s)) eqn:Hc, tts; apply app_ext; simpl;
    rewrite <- ?app_assoc; try reflexivity;
    destruct (self s); simpl in *; subst; reflexivity.
Qed.

Lemma step_idle i e s : pc_of i s = None -> step (Work i e) s = s.
Proof. unfold pc_of. intros H. simpl. rewrite H. reflexivity. Qed.

(** Every way a step of the process can go, each with the state it
    yields written out. *)
Ltac step_cases a s :=
  let Hrun := fresh "Hrun" in
  let Hq := fresh "Hq" in
  let Hgo := fresh "Hgo" in
  let Hpc := fresh "Hpc" in
  destruct a as [?opened ?tts ?r|?tts|?r| |?j ?e];
  [ change (step (Start opened tts r) s)
      with (start_navigation opened tts r s);
    destruct (is_running (self s)) eqn:Hrun;
    [ rewrite (start_running opened tts r s Hrun)
    | destruct opened;
      [ rewrite (start_opened_eq tts r s Hrun),
          (update_frame_read r (started tts s) (started_ready tts s))
      | rewrite (start_unopened tts r s Hrun) ] ]
  | change (step (Stop tts) s) with (stop_navigation tts s);
    destruct (is_running (self s)) eqn:Hrun;
    [ rewrite (stop_running_eq tts s Hrun)
    | rewrite (stop_not_running tts s Hrun) ]
  | change (step (Tick r) s) with (run_after20 r s);
    rewrite (run_after20_eq r s);
    destruct (after20 (tk s)) as [|?n] eqn:Hq;
    [ | destruct (is_running (self (dequeued n s))
                  && is_some (cap (self (dequeued n s)))) eqn:Hgo;
        [ rewrite (update_frame_read r (dequeued n s) Hgo)
        | rewrite (update_frame_idle r (dequeued n s) Hgo) ] ]
  | change (step Idle s) with (run_after0 s);
    rewrite (run_after0_eq s);
    destruct (after0 (tk s)) as [|?text ?rest] eqn:Hq
  | destruct (pc_of j s) as [?pc|] eqn:Hpc;
    [ rewrite (step_work j e pc s Hpc)
    | rewrite (step_idle j e s Hpc) ] ].


Lemma worker_step_camera i e pc s :
  let s' := snd (worker_step i e pc s) in
  is_running (self s') = is_running (self s) /\
  cap (self s') = cap (self s) /\
  count is_release (log s') = count is_release (log s) /\
  count is_open_ok (log s') = count is_open_ok (log s).
Proof.
  destruct pc; simpl; unfold_ops; split_tests; simpl;
    rewrite ?count_app; unfold count; simpl; repeat split;
    try lia; congruence.
Qed.

Lemma camera_inv_step a s : camera_inv s -> camera_inv (step a s).
Proof.
  unfold camera_inv. intros [Hcap Hcount].
  step_cases a s; simpl; rewrite ?count_app; unfold count in *; simpl;
    rewrite ?length_app; simpl.
  - rewrite Hrun. split; assumption.
  - destruct r, tts; simpl; (split; [discriminate|lia]).
  - rewrite Hrun. split; [discriminate|lia].
  - destruct (cap (self s)); [|exfalso; apply Hcap; reflexivity].
    destruct tts; simpl; (split; [discriminate|lia]).
  - rewrite Hrun. split; assumption.
  - split; assumption.
  - apply andb_true_iff in Hgo. destruct Hgo as [Hgo _]. simpl in Hgo.
    rewrite Hgo in *.
    destruct r; simpl; rewrite ?Hgo; (split; [assumption|lia]).
  - split; assumption.
  - split; assumption.
  - split; [assumption|lia].
  - destruct (worker_step_camera j e pc s) as (-> & -> & Hr & Ho).
    unfold count in Hr, Ho. rewrite Hr, Ho. split; assumption.
  - split; assumption.
Qed.

Lemma camera_inv_run acts : camera_inv (run acts init).
Proof.
  apply run_invariant; [exact camera_inv_step|].
  split; [discriminate|reflexivity].
Qed.


Lemma emitted_nil s : emitted s s = [].
Proof. unfold emitted. apply skipn_all. Qed.

Lemma stop_twice (tts tts' : bool) (s : app) :
  stop_navigation tts' (stop_navigation tts s) = stop_navigation tts s.
Proof. apply stop_not_running, stop_is_running. Qed.

(** C4: [stop_navigation] is idempotent: a second call right after the
    first changes nothing at all, so it releases nothing and raises
    nothing.  Along every execution of the application, whatever ticks and
    worker steps it contains, the camera has been released once for every
    session that was started and stopped; and pressing Stop twice on a
    reachable state releases the camera exactly once if a session is
    running, and not at all otherwise. *)
Theorem stop_idempotent_release_once :
  (forall (tts tts' : bool) (s : app),
      stop_navigation tts' (stop_navigation tts s) = stop_navigation tts s) /\
  (forall acts : list action,
      let s := run acts init in
      (count is_release (log s) + (if is_running (self s) then 1 else 0)
       = count is_open_ok (log s))%nat) /\
  (forall (acts : list action) (tts tts' : bool),
      let s := run acts init in
      let s' := run [Stop tts; Stop tts'] s in
      s' = run [Stop tts] s /\
      count is_release (emitted s s')
      = if is_running (self s) then 1%nat else 0%nat).
Proof.
  split; [exact stop_twice|]. split.
  - intros acts. apply (camera_inv_run acts).
  - intros acts tts tts' s s'. subst s'. simpl. rewrite stop_twice.
    split; [reflexivity|].
    destruct (camera_inv_run acts) as [Hcap _]. fold s in Hcap.
    destruct (is_running (self s)) eqn:Hrun.
    + destruct (cap (self s)) as [c|] eqn:Hc;
        [|exfalso; apply Hcap; reflexivity].
      rewrite (stop_running tts s c Hrun Hc).
      erewrite emitted_app by (simpl; reflexivity).
      destruct tts; reflexivity.
    + rewrite (stop_not_running tts s Hrun). rewrite emitted_nil.
      reflexivity.
Qed.


(** ** Which thread makes the blocking calls *)

Lemma worker_step_discipline i e pc s :
  Forall ui_discipline (log s) ->
  Forall ui_discipline (log (snd (worker_step i e pc s))).
Proof.
  intros H. destruct pc; simpl; unfold_ops; split_tests; simpl;
    rewrite ?Forall_app; repeat split; try assumption;
    repeat constructor.
Qed.

Ltac new_entries :=
  simpl; rewrite ?Forall_app; repeat split; try assumption;
  repeat (apply Forall_cons; [simpl; auto|]); apply Forall_nil.

Lemma discipline_step a s :
  Forall ui_discipline (log s) -> Forall ui_discipline (log (step a s)).
Proof.
  intros H. step_cases a s; try assumption.
  - destruct r, tts; new_entries.
  - new_entries.
  - destruct (cap (self s)), tts; new_entries.
  - destruct r; new_entries.
  - new_entries.
  - apply worker_step_discipline. exact H.
Qed.

Lemma tick_emitted r s :
  emitted s (run_after20 r s) = [] \/
  emitted s (run_after20 r s) = [(UI, Read None); (UI, After20)] \/
  exists f, emitted s (run_after20 r s)
            = [(UI, Read (Some f)); (UI, ConfigVideo (Showing f));
               (UI, After20)].
Proof.
  rewrite run_after20_eq. destruct (after20 (tk s)) as [|n];
    [left; apply emitted_nil|].
  destruct (is_running (self (dequeued n s))
            && is_some (cap (self (dequeued n s)))) eqn:Hgo.
  - rewrite (update_frame_read r _ Hgo). destruct r as [f|].
    + right. right. exists f. apply emitted_app. reflexivity.
    + right. left. apply emitted_app. reflexivity.
  - rewrite (update_frame_idle r _ Hgo). left. apply (emitted_nil s).
Qed.

Lemma start_said opened tts r s :
  said UI (emitted s (start_navigation opened tts r s))
  = if negb (is_running (self s)) && opened
    then [PyStr.lit "Navigation system activated."] else [].
Proof.
  destruct (is_running (self s)) eqn:Hrun; simpl.
  - rewrite (start_running opened tts r s Hrun), emitted_nil. reflexivity.
  - destruct opened.
    + rewrite (start_opened_eq tts r s Hrun),
        (update_frame_read r _ (started_ready tts s)).
      erewrite emitted_app by (simpl; rewrite <- app_assoc; reflexivity).
      destruct tts, r; reflexivity.
    + rewrite (start_unopened tts r s Hrun).
      erewrite emitted_app by (simpl; reflexivity). reflexivity.
Qed.

Lemma stop_said tts s :
  said UI (emitted s (stop_navigation tts s))
  = if is_running (self s)
    then [PyStr.lit "Navigation system shutting down."] else [].
Proof.
  destruct (is_running (self s)) eqn:Hrun.
  - rewrite (stop_running_eq tts s Hrun).
    erewrite emitted_app by (simpl; reflexivity).
    destruct (cap (self s)), tts; reflexivity.
  - rewrite (stop_not_running tts s Hrun), emitted_nil. reflexivity.
Qed.

(** C8 (amended): the remote advisory call is made by worker threads only,
    and the capture tick makes neither blocking call.  Speech is not
    confined to the worker: the Start handler speaks "Navigation system
    activated." (line 105) and the Stop handler speaks "Navigation system
    shutting down." (line 130) on the UI thread; these two announcements
    are the only speech the UI thread ever plays. *)
Theorem blocking_calls_by_thread :
  (forall acts : list action, Forall ui_discipline (log (run acts init))) /\
  (forall (r : option frame) (s : app),
      Forall (fun x => blocking (snd x) = false)
             (emitted s (run_after20 r s))) /\
  (forall (opened tts : bool) (r : option frame) (s : app),
      said UI (emitted s (start_navigation opened tts r s))
      = if negb (is_running (self s)) && opened
        then [PyStr.lit "Navigation system activated."] else []) /\
  (forall (tts : bool) (s : app),
      said UI (emitted s (stop_navigation tts s))
      = if is_running (self s)
        then [PyStr.lit "Navigation system shutting down."] else []).
Proof.
  split; [|split; [|split]].
  - intros acts. apply run_invariant; [exact discipline_step|constructor].
  - intros r s.
    destruct (tick_emitted r s) as [-> | [-> | [f ->]]]; repeat constructor.
  - exact start_said.
  - exact stop_said.
Qed.


(** ** The shared frame *)

Lemma last_captured_app d l1 l2 :
  last_captured d (l1 ++ l2) = last_captured (last_captured d l1) l2.
Proof.
  revert d. induction l1 as [|[th ev] l1 IH]; intros d; simpl;
    [reflexivity|].
  destruct ev; try apply IH. destruct r; apply IH.
Qed.

Lemma worker_step_frame i e pc s :
  let s' := snd (worker_step i e pc s) in
  latest_frame (self s') = latest_frame (self s) /\
  last_captured None (log s') = last_captured None (log s).
Proof.
  destruct pc; simpl; unfold_ops; split_tests; simpl;
    rewrite ?last_captured_app; simpl; split; congruence.
Qed.

Lemma frame_inv_step a s : frame_inv s -> frame_inv (step a s).
Proof.
  unfold frame_inv. intros H.
  step_cases a s; try assumption; simpl; rewrite ?last_captured_app; simpl.
  - destruct r, tts; simpl; rewrite ?last_captured_app; simpl;
      try reflexivity; exact H.
  - exact H.
  - destruct (cap (self s)), tts; simpl; exact H.
  - destruct r; simpl; [reflexivity|exact H].
  - exact H.
  - destruct (worker_step_frame j e pc s) as [-> ->]. exact H.
Qed.

Lemma frame_inv_run acts : frame_inv (run acts init).
Proof. apply run_invariant; [exact frame_inv_step|reflexivity]. Qed.

(** Only a camera read that succeeds writes [latest_frame]. *)
Lemma no_write_step a s :
  no_write a = true -> latest_frame (self (step a s)) = latest_frame (self s).
Proof.
  intros Hw. step_cases a s; try reflexivity; simpl.
  - destruct r; [discriminate|reflexivity].
  - destruct r; [discriminate|reflexivity].
  - apply worker_step_frame.
Qed.

Lemma no_write_run acts s :
  forallb no_write acts = true ->
  latest_frame (self (run acts s)) = latest_frame (self s).
Proof.
  revert s. induction acts as [|a acts IH]; intros s H; simpl in *;
    [reflexivity|].
  apply andb_true_iff in H. destruct H as [Ha Hacts].
  rewrite (IH _ Hacts). apply no_write_step, Ha.
Qed.

(** C9: the frame attribute always holds either nothing or the whole frame
    that the latest successful camera read delivered; it is written in one
    assignment and by the capture tick only.  Hence between two writes
    every read of the advisory loop sees the same frame: if [f] was stored
    and the steps [p] that follow store nothing, the attribute still holds
    [f], the test of line 183 finds a frame, and a worker that takes its
    snapshot (line 188) gets exactly [f]. *)
Theorem latest_frame_reads
        (s : app) (f : frame) (p : list action) (i : nat) (e : env) :
  latest_frame (self s) = Some f ->
  forallb no_write p = true ->
  pc_of i (run p s) = Some AtConvert ->
  (forall acts : list action,
      latest_frame (self (run acts init))
      = last_captured None (log (run acts init))) /\
  latest_frame (self (run p s)) = Some f /\
  is_some (latest_frame (self (run p s))) = true /\
  pc_of i (run (p ++ [Work i e]) s) = Some (AtGenerate f).
Proof.
  intros Hf Hp Hpc.
  assert (Hf' : latest_frame (self (run p s)) = Some f)
    by (rewrite (no_write_run p s Hp); exact Hf).
  split; [exact frame_inv_run|]. split; [exact Hf'|].
  split; [rewrite Hf'; reflexivity|].
  rewrite run_app. cbn [run].
  rewrite (pc_of_step_work i e _ _ Hpc). simpl. rewrite Hf'. reflexivity.
Qed.


Lemma failed_ticks_no_write n : forallb no_write (repeat (Tick None) n) = true.
Proof. induction n as [|n IH]; simpl; [reflexivity|exact IH]. Qed.

(** A tick whose camera read fails changes nothing but the schedule. *)
Lemma failed_tick_frame s :
  let s' := step (Tick None) s in
  self s' = self s /\ gui s' = gui s /\ threads s' = threads s /\
  after0 (tk s') = after0 (tk s) /\
  (emitted s s' = [] \/ emitted s s' = [(UI, Read None); (UI, After20)]).
Proof.
  change (step (Tick None) s) with (run_after20 None s).
  rewrite run_after20_eq. destruct (after20 (tk s)) as [|n].
  - repeat split. left. apply emitted_nil.
  - destruct (is_running (self (dequeued n s))
              && is_some (cap (self (dequeued n s)))) eqn:Hgo.
    + rewrite (update_frame_read None _ Hgo). simpl. repeat split.
      right. apply emitted_app. reflexivity.
    + rewrite (update_frame_idle None _ Hgo). repeat split.
      left. apply (emitted_nil s).
Qed.

(** The snapshot and the request, lines 188-193, by worker [i]. *)
Lemma snapshot_request s i f e1 e2 :
  latest_frame (self s) = Some f ->
  pc_of i s = Some AtConvert ->
  emitted s (run [Work i e1; Work i e2] s) = [(Worker i, Request f)].
Proof.
  intros Hf Hpc. cbn [run].
  pose proof (pc_of_step_work i e1 _ s Hpc) as H1.
  rewrite (step_work i e1 _ s Hpc) in *.
  cbn [worker_step] in *. rewrite Hf in *. cbn [fst snd] in *.
  rewrite (step_work i e2 _ _ H1).
  apply emitted_app. cbn [worker_step].
  destruct (reply e2); reflexivity.
Qed.

(** C10: a capture tick whose camera read fails leaves every attribute of
    the session, [latest_frame] among them, and every widget as it was; it
    only reads the camera and schedules the next tick.  So after any number
    of failed reads a worker that takes its snapshot and issues the request
    sends the frame of the last read that succeeded, however old. *)
Theorem failed_read_keeps_frame
        (acts : list action) (n i : nat) (f : frame) (e1 e2 : env) :
  let s0 := run acts init in
  let s := run (repeat (Tick None) n) s0 in
  last_captured None (log s0) = Some f ->
  pc_of i s = Some AtConvert ->
  (forall s1 : app,
      let s1' := step (Tick None) s1 in
      self s1' = self s1 /\ gui s1' = gui s1 /\ threads s1' = threads s1 /\
      after0 (tk s1') = after0 (tk s1) /\
      (emitted s1 s1' = [] \/
       emitted s1 s1' = [(UI, Read None); (UI, After20)])) /\
  latest_frame (self s) = Some f /\
  emitted s (run [Work i e1; Work i e2] s) = [(Worker i, Request f)].
Proof.
  intros s0 s Hlast Hpc.
  assert (Hf : latest_frame (self s) = Some f).
  { subst s. rewrite (no_write_run _ _ (failed_ticks_no_write n)).
    subst s0. rewrite (frame_inv_run acts). exact Hlast. }
  split; [exact failed_tick_frame|]. split; [exact Hf|].
  apply snapshot_request; assumption.
Qed.


(** ** Spacing of the advisory requests *)

Lemma due_spec (t last : Q) : due t last = true <-> 4 < t - last.
Proof.
  unfold due. rewrite negb_true_iff. split.
  - intros H. apply Qnot_le_lt. intros Hle.
    apply Qle_bool_iff in Hle. congruence.
  - intros H. destruct (Qle_bool (t - last) 4) eqn:Hb; [|reflexivity].
    apply Qle_bool_iff in Hb. exfalso. apply (Qlt_not_le _ _ H Hb).
Qed.

Lemma stamps_app i l1 l2 : stamps i (l1 ++ l2) = stamps i l1 ++ stamps i l2.
Proof.
  induction l1 as [|[th ev] l1 IH]; simpl; [reflexivity|].
  destruct th; [exact IH|]. destruct ev; try exact IH.
  destruct (Nat.eqb i i0); simpl; [f_equal|]; exact IH.
Qed.

Lemma all_stamps_app l1 l2 :
  all_stamps (l1 ++ l2) = all_stamps l1 ++ all_stamps l2.
Proof.
  induction l1 as [|[th ev] l1 IH]; simpl; [reflexivity|].
  destruct ev; try exact IH. simpl. f_equal. exact IH.
Qed.

Lemma stamps_in_all i l t : In t (stamps i l) -> In t (all_stamps l).
Proof.
  induction l as [|[th ev] l IH]; simpl; [tauto|].
  destruct th, ev; simpl; auto.
  destruct (Nat.eqb i i0); simpl; tauto.
Qed.

Lemma spaced_snoc (l : list Q) (x : Q) :
  spaced l -> (forall t, In t l -> 4 < x - t) -> spaced (l ++ [x]).
Proof.
  induction l as [|a l IH]; intros Hs Hx; [exact I|].
  destruct l as [|b l].
  - simpl. split; [apply Hx; left; reflexivity|exact I].
  - destruct Hs as [Hab Hs]. split; [exact Hab|].
    apply IH; [exact Hs|]. intros t Ht. apply Hx. right. exact Ht.
Qed.


Lemma nth_error_snoc_other {A : Type} (l : list A) (x y : A) (i : nat) :
  nth_error (l ++ [x]) i = Some y -> y <> x -> nth_error l i = Some y.
Proof.
  intros H Hne. destruct (Nat.lt_ge_cases i (List.length l)) as [Hlt|Hge].
  - rewrite nth_error_app1 in H by exact Hlt. exact H.
  - rewrite nth_error_app2 in H by exact Hge.
    destruct (i - List.length l)%nat as [|k]; simpl in H.
    + injection H as <-. contradiction.
    + destruct k; discriminate.
Qed.

(** The handlers and the main loop never touch the timestamp, and a thread
    they start stands at the head of its loop. *)
Lemma ui_step_stamps a s i :
  (forall j e, a <> Work j e) ->
  all_stamps (log (step a s)) = all_stamps (log s) /\
  stamps i (log (step a s)) = stamps i (log s) /\
  last_spoken_time (self (step a s)) = last_spoken_time (self s) /\
  (pc_of i (step a s) = Some AtStamp -> pc_of i s = Some AtStamp).
Proof.
  intros Hui. unfold pc_of.
  step_cases a s; try (exfalso; eapply Hui; reflexivity);
    try (repeat split; intros H; exact H);
    simpl; rewrite ?all_stamps_app, ?stamps_app.
  - destruct r, tts; simpl; rewrite ?app_nil_r; repeat split;
      intros H; apply (nth_error_snoc_other _ _ _ _ H); discriminate.
  - simpl. rewrite ?app_nil_r. repeat split. intros H; exact H.
  - destruct (cap (self s)), tts; simpl; rewrite ?app_nil_r; repeat split;
      intros H; exact H.
  - destruct r; simpl; rewrite ?app_nil_r; repeat split; intros H; exact H.
  - simpl. rewrite ?app_nil_r. repeat split. intros H; exact H.
Qed.

(** A worker statement other than line 184 leaves the timestamps alone, and
    line 184 is only reached through the test of line 183. *)
Lemma worker_step_stamps i j e pc s :
  let pc' := fst (worker_step j e pc s) in
  let s' := snd (worker_step j e pc s) in
  (pc = AtStamp /\ pc' = AtAnalyzing /\
   all_stamps (log s') = all_stamps (log s) ++ [now e] /\
   stamps i (log s')
   = stamps i (log s) ++ (if Nat.eqb i j then [now e] else []) /\
   last_spoken_time (self s') = now e) \/
  (pc <> AtStamp /\
   all_stamps (log s') = all_stamps (log s) /\
   stamps i (log s') = stamps i (log s) /\
   last_spoken_time (self s') = last_spoken_time (self s) /\
   (pc' = AtStamp ->
    pc = AtCheck /\ due (now e) (last_spoken_time (self s)) = true)).
Proof.
  destruct pc; simpl;
    try (left; repeat split; rewrite ?all_stamps_app, ?stamps_app; simpl;
         reflexivity);
    right; unfold_ops; split_tests; simpl;
    rewrite ?all_stamps_app, ?stamps_app; simpl; rewrite ?app_nil_r;
    repeat split; try discriminate;
    match goal with
    | H : (_ && _)%bool = true |- _ =>
        apply andb_true_iff in H; apply H
    end.
Qed.


Lemma stamp_inv_clock c c' i s : c <= c' -> stamp_inv c i s -> stamp_inv c' i s.
Proof.
  intros Hc (H1 & H2 & H3 & H4). repeat split; try assumption.
  - intros t Ht. specialize (H1 t Ht). lra.
  - intros Hpc t Ht. specialize (H3 Hpc t Ht). lra.
Qed.

Lemma stamp_inv_ui a c i s :
  (forall j e, a <> Work j e) -> stamp_inv c i s -> stamp_inv c i (step a s).
Proof.
  intros Hui (H1 & H2 & H3 & H4).
  destruct (ui_step_stamps a s i Hui) as (Ea & Es & El & Hpc).
  unfold stamp_inv. rewrite Ea, Es, El. repeat split; try assumption.
  intros Hpc'. apply H3, Hpc, Hpc'.
Qed.

Lemma stamp_inv_work j e c i s :
  c <= now e -> stamp_inv c i s -> stamp_inv (now e) i (step (Work j e) s).
Proof.
  intros Hc Hinv.
  destruct (pc_of j s) as [pc|] eqn:Hpc.
  2:{ unfold pc_of in Hpc. simpl. rewrite Hpc.
      apply (stamp_inv_clock c); assumption. }
  pose proof (pc_of_step_work j e pc s Hpc) as Hpc'.
  rewrite (step_work j e pc s Hpc) in *.
  destruct Hinv as (H1 & H2 & H3 & H4).
  assert (Hother : i <> j ->
            pc_of i (with_threads (set_nth j (fst (worker_step j e pc s)))
                       (snd (worker_step j e pc s))) = pc_of i s).
  { intros Hij. unfold pc_of. simpl. rewrite threads_worker_step.
    apply nth_error_set_nth_neq. exact Hij. }
  unfold stamp_inv. cbn [log self with_threads].
  destruct (worker_step_stamps i j e pc s)
    as [(Epc & Epc' & Ea & Es & El) | (Npc & Ea & Es & El & Hdue)];
    rewrite Ea, Es, El.
  - (* line 184 *)
    repeat split.
    + intros t Ht. apply in_app_or in Ht. destruct Ht as [Ht|[<-|[]]];
        [specialize (H1 t Ht)|]; lra.
    + intros t Ht. apply in_app_or in Ht. destruct Ht as [Ht|[<-|[]]];
        [specialize (H1 t Ht)|]; lra.
    + intros Hi. destruct (Nat.eq_dec i j) as [->|Hij].
      * rewrite Hpc', Epc' in Hi. discriminate.
      * rewrite (Hother Hij) in Hi.
        apply Nat.eqb_neq in Hij. rewrite Hij, app_nil_r.
        intros t Ht. specialize (H3 Hi t Ht). lra.
    + destruct (Nat.eqb_spec i j) as [->|Hij]; [|rewrite app_nil_r; exact H4].
      apply spaced_snoc; [exact H4|].
      intros t Ht. subst pc. specialize (H3 Hpc t Ht). lra.
  - (* any other statement *)
    repeat split; try assumption.
    + intros t Ht. specialize (H1 t Ht). lra.
    + intros Hi t Ht. destruct (Nat.eq_dec i j) as [->|Hij].
      * rewrite Hpc' in Hi. injection Hi as Hi.
        destruct (Hdue Hi) as [_ Hd]. apply due_spec in Hd.
        specialize (H2 t (stamps_in_all _ _ _ Ht)). lra.
      * rewrite (Hother Hij) in Hi. specialize (H3 Hi t Ht). lra.
Qed.

Lemma stamp_inv_run acts : forall c i s,
  clock_mono c acts -> stamp_inv c i s ->
  exists c', stamp_inv c' i (run acts s).
Proof.
  induction acts as [|a acts IH]; intros c i s Hm Hinv; cbn [run].
  - exists c. exact Hinv.
  - destruct a as [opened tts r|tts|r| |j e]; simpl in Hm;
      try (apply (IH c); [exact Hm|];
           apply stamp_inv_ui; [discriminate|exact Hinv]).
    destruct Hm as [Hc Hm]. apply (IH (now e)); [exact Hm|].
    apply (stamp_inv_work j e c); assumption.
Qed.

Lemma stamp_inv_init c i : stamp_inv c i init.
Proof.
  unfold stamp_inv. simpl. repeat split; try tauto.
Qed.


(** ** The failure path of the advisory loop *)

(** Lines 190 and 200-204 when the call raises. *)
Lemma failure_path_raised (s : app) (i : nat) (img : frame) (x : failure)
      (e1 e2 e3 : env) :
  pc_of i s = Some (AtGenerate img) ->
  reply e1 = Raised x ->
  let s' := run [Work i e1; Work i e2; Work i e3] s in
  pc_of i s' = Some AtWhile /\
  self s' = self s /\ gui s' = gui s /\
  after0 (tk s') = after0 (tk s) ++ [ai_error] /\
  log s' = log s ++
    [(Worker i, Request img); (Worker i, Print (PyStr.lit "[Gemini Error]"));
     (Worker i, After0 ai_error); (Worker i, Sleep)].
Proof.
  intros Hpc Hr. cbn [run].
  pose proof (pc_of_step_work i e1 _ s Hpc) as H1.
  rewrite (step_work i e1 _ s Hpc) in *.
  cbn [worker_step] in *. rewrite Hr in *. cbn [fst snd] in *.
  pose proof (pc_of_step_work i e2 _ _ H1) as H2.
  rewrite (step_work i e2 _ _ H1) in *.
  cbn [worker_step fst snd] in *.
  pose proof (pc_of_step_work i e3 _ _ H2) as H3.
  rewrite (step_work i e3 _ _ H2) in *.
  cbn [worker_step fst snd] in *.
  split; [exact H3|]. simpl. repeat split.
  rewrite <- !app_assoc. reflexivity.
Qed.

(** Lines 190, 194 and 200-204 when the response has no readable text. *)
Lemma failure_path_malformed (s : app) (i : nat) (img : frame)
      (e1 e2 e3 e4 : env) :
  pc_of i s = Some (AtGenerate img) ->
  reply e1 = Returned None ->
  let s' := run [Work i e1; Work i e2; Work i e3; Work i e4] s in
  pc_of i s' = Some AtWhile /\
  self s' = self s /\ gui s' = gui s /\
  after0 (tk s') = after0 (tk s) ++ [ai_error] /\
  log s' = log s ++
    [(Worker i, Request img); (Worker i, Print (PyStr.lit "[Gemini Error]"));
     (Worker i, After0 ai_error); (Worker i, Sleep)].
Proof.
  intros Hpc Hr. cbn [run].
  pose proof (pc_of_step_work i e1 _ s Hpc) as H1.
  rewrite (step_work i e1 _ s Hpc) in *.
  cbn [worker_step] in *. rewrite Hr in *. cbn [fst snd] in *.
  pose proof (pc_of_step_work i e2 _ _ H1) as H2.
  rewrite (step_work i e2 _ _ H1) in *.
  cbn [worker_step fst snd] in *.
  pose proof (pc_of_step_work i e3 _ _ H2) as H3.
  rewrite (step_work i e3 _ _ H2) in *.
  cbn [worker_step fst snd] in *.
  pose proof (pc_of_step_work i e4 _ _ H3) as H4.
  rewrite (step_work i e4 _ _ H3) in *.
  cbn [worker_step fst snd] in *.
  split; [exact H4|]. simpl. repeat split.
  rewrite <- !app_assoc. reflexivity.
Qed.

(** Lines 181 and 183: the top of the next iteration. *)
Lemma next_check (s : app) (i : nat) (e1 e2 : env) :
  pc_of i s = Some AtWhile ->
  let s' := run [Work i e1; Work i e2] s in
  self s' = self s /\ gui s' = gui s /\ tk s' = tk s /\ log s' = log s /\
  pc_of i s' =
    Some (if is_running (self s)
          then if due (now e2) (last_spoken_time (self s))
                  && is_some (latest_frame (self s))
               then AtStamp else AtSleep
          else Exited).
Proof.
  intros Hpc. cbn [run].
  pose proof (pc_of_step_work i e1 _ s Hpc) as H1.
  rewrite (step_work i e1 _ s Hpc) in *.
  cbn [worker_step] in *.
  destruct (is_running (self s)); cbn [fst snd] in *.
  - pose proof (pc_of_step_work i e2 _ _ H1) as H2.
    rewrite (step_work i e2 _ _ H1) in *.
    cbn [worker_step self with_threads] in *.
    destruct (due (now e2) (last_spoken_time (self s))
              && is_some (latest_frame (self s)));
      cbn [fst snd] in *; repeat split; exact H2.
  - pose proof (pc_of_step_work i e2 _ _ H1) as H2.
    rewrite (step_work i e2 _ _ H1) in *.
    cbn [worker_step fst snd] in *. repeat split; exact H2.
Qed.


(** C5: when the advisory call fails (it raises on a timeout or a transport
    error, or its response has no readable text) the worker publishes the
    generic failure status, issues no further request in that iteration,
    leaves [is_running] and every other attribute as they are, sleeps and is
    back at the head of its loop.  The next iteration does not retry at
    once: it issues a request only if more than 4 seconds have passed since
    [last_spoken_time], which still holds the stamp taken before the failed
    call; the thread ends only if [is_running] has been cleared. *)
Theorem advisory_failure_handled
        (s : app) (i : nat) (img : frame) (e1 e2 e3 e4 e5 e6 : env) :
  pc_of i s = Some (AtGenerate img) ->
  failed (reply e1) = true ->
  let s' := run (firstn (failure_path (reply e1))
                        [Work i e1; Work i e2; Work i e3; Work i e4]) s in
  let s'' := run [Work i e5; Work i e6] s' in
  (emitted s s' =
     [(Worker i, Request img); (Worker i, Print (PyStr.lit "[Gemini Error]"));
      (Worker i, After0 ai_error); (Worker i, Sleep)] /\
   ai_status_label (gui (drain s')) = ai_error /\
   self s' = self s /\
   pc_of i s' = Some AtWhile) /\
  (emitted s' s'' = [] /\
   self s'' = self s /\
   pc_of i s'' =
     Some (if is_running (self s)
           then if due (now e6) (last_spoken_time (self s))
                   && is_some (latest_frame (self s))
                then AtStamp else AtSleep
           else Exited)).
Proof.
  intros Hpc Hfail s' s''.
  assert (H : pc_of i s' = Some AtWhile /\
              self s' = self s /\ gui s' = gui s /\
              after0 (tk s') = after0 (tk s) ++ [ai_error] /\
              log s' = log s ++
                [(Worker i, Request img);
                 (Worker i, Print (PyStr.lit "[Gemini Error]"));
                 (Worker i, After0 ai_error); (Worker i, Sleep)]).
  { subst s'. destruct (reply e1) as [[text|]|x] eqn:Hr.
    - discriminate.
    - apply failure_path_malformed; assumption.
    - apply (failure_path_raised s i img x); assumption. }
  destruct H as (Hpc' & Hself & Hgui & Hq & Hlog).
  destruct (next_check s' i e5 e6 Hpc') as (Hself' & _ & _ & Hlog' & Hpc'').
  fold s'' in Hself', Hlog', Hpc''.
  split; [split; [|split; [|split]]|split; [|split]].
  - apply emitted_app. exact Hlog.
  - rewrite drain_label, Hq. apply last_last.
  - exact Hself.
  - exact Hpc'.
  - unfold emitted. rewrite Hlog'. apply skipn_all.
  - rewrite Hself'. exact Hself.
  - rewrite Hpc'', Hself. reflexivity.
Qed.




Example sample_pcs (f : frame) :
  map (fun n => pc_of 0 (sample f n)) [0; 1; 2; 3; 4; 5; 6; 7; 8; 9; 10; 11]%nat
  = map Some
      [AtWhile; AtCheck; AtStamp; AtAnalyzing; AtConvert; AtGenerate f;
       AtClean (Some (PyStr.lit "Clear path ahead. Walk forward."));
       AtCue (PyStr.lit "Clear path ahead. Walk forward.");
       AtSpeak (PyStr.lit "Clear path ahead. Walk forward.");
       AtSleep; AtWhile; AtCheck].
Proof. reflexivity. Qed.

(** Why the clock is asked not to go back: if it is set back by 4 seconds
    between the test of line 183 and the stamp of line 184, the one loop of
    the sample session stamps at 100 and at 101. *)
Example clock_set_back (f : frame) :
  let acts := sample_acts f 11
              ++ [Work 0 (env_at 105 sample_reply);
                  Work 0 (env_at 101 sample_reply)] in
  stamps 0 (log (run acts init)) = [100; 101] /\
  ~ clock_mono 0 acts.
Proof.
  intros acts. split; [reflexivity|].
  simpl. intros H.
  repeat match type of H with _ /\ (_ /\ _) => destruct H as [_ H] end.
  destruct H as [H _]. unfold Qle in H. simpl in H. lia.
Qed.

Example sample_two_requests (f : frame) :
  let s := run (sample_acts f 11
                ++ repeat (Work 0 (env_at 105 sample_reply)) 4) init in
  stamps 0 (log s) = [100; 105] /\
  pc_of 0 s = Some (AtGenerate f) /\
  pc_of 0 (sample f 12) = Some AtSleep.
Proof. intros s. split; [|split]; reflexivity. Qed.


(** * Further properties of the code *)

(** ** What the handlers keep *)

Lemma worker_step_gui i e pc s :
  gui (snd (worker_step i e pc s)) = gui s.
Proof.
  destruct pc; simpl; unfold_ops; split_tests; reflexivity.
Qed.

Lemma gui_inv_step a s : gui_inv s -> gui_inv (step a s).
Proof.
  unfold gui_inv. intros (Hs & Hp & Hv).
  step_cases a s; simpl; rewrite ?Hrun in *; auto.
  - destruct r; simpl; repeat split; discriminate.
  - apply andb_true_iff in Hgo. destruct Hgo as [Hgo _]. simpl in Hgo.
    rewrite Hgo in *.
    destruct r; simpl; rewrite ?Hgo; repeat split; auto; discriminate.
  - rewrite worker_step_gui.
    destruct (worker_step_camera j e pc s) as (-> & _). auto.
Qed.

(** X1: along every execution the two buttons are in opposite states that
    follow [is_running]: Start is enabled and Stop disabled exactly when no
    session runs; and whenever no session runs the video label shows
    "Camera is off". *)
Theorem buttons_follow_session (acts : list action) :
  let s := run acts init in
  btn_start (gui s) = (if is_running (self s) then DISABLED else NORMAL) /\
  btn_stop (gui s) = (if is_running (self s) then NORMAL else DISABLED) /\
  (btn_start (gui s) = NORMAL <-> btn_stop (gui s) = DISABLED) /\
  (is_running (self s) = false -> video_label (gui s) = CameraOff).
Proof.
  intros s.
  assert (H : gui_inv s).
  { apply run_invariant; [exact gui_inv_step|]. repeat split. }
  destruct H as (Hs & Hp & Hv). rewrite Hs, Hp.
  repeat split; try assumption;
    destruct (is_running (self s)); intros; congruence.
Qed.


Lemma handle_inv_step a s : handle_inv s -> handle_inv (step a s).
Proof.
  unfold handle_inv. intros H.
  step_cases a s; simpl; rewrite ?Hrun in *; auto.
  - destruct r; reflexivity.
  - apply andb_true_iff in Hgo. destruct Hgo as [Hgo _]. simpl in Hgo.
    rewrite Hgo in *. destruct r; simpl; rewrite Hgo; exact H.
  - destruct (worker_step_camera j e pc s) as (-> & -> & _). exact H.
Qed.

Lemma handle_inv_run acts : handle_inv (run acts init).
Proof.
  apply run_invariant; [exact handle_inv_step|]. left. reflexivity.
Qed.

(** X2: along every execution a session runs exactly when the application
    holds a capture object that opened; a capture object that failed to
    open is only ever held while stopped. *)
Theorem camera_open_iff_running (acts : list action) :
  let s := run acts init in
  (is_running (self s) = true <-> cap (self s) = Some {| isOpened := true |}) /\
  (cap (self s) = Some {| isOpened := false |} -> is_running (self s) = false).
Proof.
  intros s. pose proof (handle_inv_run acts) as H. fold s in H.
  unfold handle_inv in H. destruct (is_running (self s)).
  - rewrite H. repeat split; congruence.
  - repeat split; try discriminate. intros Hc.
    destruct H as [H|H]; rewrite H in Hc; discriminate.
Qed.

Lemma ui_threads a s :
  by_ui a = true ->
  threads (step a s) = threads s \/ threads (step a s) = threads s ++ [AtWhile].
Proof.
  intros Hui. step_cases a s; try discriminate; simpl; auto.
Qed.

Lemma ui_keeps_pc (a : action) (s : app) (i : nat) (pc : wpc) :
  by_ui a = true ->
  pc_of i s = Some pc ->
  pc_of i (step a s) = Some pc.
Proof.
  intros Hui Hpc. unfold pc_of in *.
  destruct (ui_threads a s Hui) as [-> | ->]; [exact Hpc|].
  rewrite nth_error_app1; [exact Hpc|].
  apply nth_error_Some. rewrite Hpc. discriminate.
Qed.

Lemma worker_step_spawns i e pc s :
  count is_spawn (log (snd (worker_step i e pc s))) = count is_spawn (log s) /\
  count is_read (log (snd (worker_step i e pc s))) = count is_read (log s).
Proof.
  destruct pc; simpl; unfold_ops; split_tests; simpl;
    rewrite ?count_app; unfold count; simpl; split; lia.
Qed.

Lemma length_set_nth {A : Type} (l : list A) i x :
  List.length (set_nth i x l) = List.length l.
Proof.
  revert i. induction l as [|y l IH]; intros [|i]; simpl; try reflexivity.
  f_equal. apply IH.
Qed.

Lemma worker_step_ai_thread i e pc s :
  ai_thread (self (snd (worker_step i e pc s))) = ai_thread (self s).
Proof.
  destruct pc; simpl; unfold_ops; split_tests; reflexivity.
Qed.

Lemma threads_inv_step a s : threads_inv s -> threads_inv (step a s).
Proof.
  unfold threads_inv. intros (Hl & Hsp & Hai).
  step_cases a s; simpl; rewrite ?count_app, ?length_app;
    unfold count in *; simpl; rewrite ?length_app; simpl; auto.
  - destruct tts, r; simpl; rewrite ?length_app; simpl;
      rewrite Nat.add_1_r; repeat split; lia.
  - rewrite !Nat.add_0_r. auto.
  - destruct (cap (self s)), tts; simpl; rewrite !Nat.add_0_r; auto.
  - destruct r; simpl; rewrite !Nat.add_0_r; auto.
  - rewrite !Nat.add_0_r. auto.
  - rewrite length_set_nth, threads_worker_step, worker_step_ai_thread.
    destruct (worker_step_camera j e pc s) as (_ & _ & _ & Ho).
    destruct (worker_step_spawns j e pc s) as (Hs & _).
    unfold count in Ho, Hs. rewrite Ho, Hs. auto.
Qed.


Lemma threads_inv_run acts : threads_inv (run acts init).
Proof.
  apply run_invariant; [exact threads_inv_step|]. repeat split.
Qed.

(** X3: along every execution there is one worker thread, and one
    [Thread.start], for each camera that opened, no more and no fewer, and
    [ai_thread] refers to the thread started last. *)
Theorem one_worker_per_opened_camera (acts : list action) :
  let s := run acts init in
  List.length (threads s) = count is_open_ok (log s) /\
  count is_spawn (log s) = count is_open_ok (log s) /\
  ai_thread (self s)
  = match List.length (threads s) with
    | O => None
    | S n => Some n
    end.
Proof. exact (threads_inv_run acts). Qed.

(** ** Winding down *)

Lemma requested_app l1 l2 :
  requested (l1 ++ l2) = requested l1 ++ requested l2.
Proof.
  induction l1 as [|[th ev] l1 IH]; simpl; [reflexivity|].
  destruct ev; try exact IH. simpl. f_equal. exact IH.
Qed.

Lemma wind_down_step i e pc s :
  is_running (self s) = false ->
  wind_down (fst (worker_step i e pc s)) = pred (wind_down pc) \/
  (wind_down (fst (worker_step i e pc s)) < pred (wind_down pc))%nat.
Proof.
  intros Hrun. destruct pc; simpl; rewrite ?Hrun; split_tests; simpl;
    auto; right; lia.
Qed.

Lemma worker_step_requested i e pc s :
  requested (log (snd (worker_step i e pc s)))
  = requested (log s)
    ++ match pc with AtGenerate f => [f] | _ => [] end.
Proof.
  destruct pc; simpl; unfold_ops; split_tests; simpl;
    rewrite ?requested_app; simpl; rewrite ?app_nil_r; reflexivity.
Qed.

Lemma wind_down_run (es : list env) : forall (s : app) (i : nat) (pc : wpc),
  is_running (self s) = false ->
  pc_of i s = Some pc ->
  (wind_down pc <= List.length es)%nat ->
  let s' := run (map (Work i) es) s in
  pc_of i s' = Some Exited /\
  is_running (self s') = false /\
  (List.length (requested (log s'))
   <= List.length (requested (log s))
      + (if 6 <=? wind_down pc then 1 else 0))%nat.
Proof.
  induction es as [|e es IH]; intros s i pc Hrun Hpc Hlen; simpl in Hlen.
  - destruct pc; simpl in Hlen; try lia. simpl. repeat split; auto; lia.
  - cbn [map run].
    pose proof (pc_of_step_work i e pc s Hpc) as Hpc'.
    pose proof (wind_down_step i e pc s Hrun) as Hw.
    pose proof (worker_step_requested i e pc s) as Hreq.
    assert (Hrun' : is_running (self (step (Work i e) s)) = false).
    { rewrite (step_work i e pc s Hpc). simpl.
      destruct (worker_step_camera i e pc s) as (-> & _). exact Hrun. }
    assert (Hlog : requested (log (step (Work i e) s))
                   = requested (log s)
                     ++ match pc with AtGenerate f => [f] | _ => [] end).
    { rewrite (step_work i e pc s Hpc). exact Hreq. }
    assert (Hlen' : (wind_down (fst (worker_step i e pc s))
                     <= List.length es)%nat) by lia.
    destruct (IH _ i _ Hrun' Hpc' Hlen') as (H1 & H2 & H3).
    split; [exact H1|]. split; [exact H2|].
    rewrite Hlog, length_app in H3.
    destruct (6 <=? wind_down (fst (worker_step i e pc s)))%nat eqn:E;
      [apply Nat.leb_le in E|apply Nat.leb_gt in E];
      destruct pc; simpl in *; lia.
Qed.


Lemma wind_down_bound pc : (wind_down pc <= 10)%nat.
Proof. destruct pc; simpl; lia. Qed.

(** X5: once [is_running] is false a worker leaves its loop of its own
    accord: from whatever statement it stands at, ten of its statements are
    enough to reach the end of the thread, during which it issues at most
    the one request of the iteration it was in; after that it does
    nothing. *)
Theorem worker_leaves_loop_after_stop
        (s : app) (i : nat) (pc : wpc) (es : list env) :
  is_running (self s) = false ->
  pc_of i s = Some pc ->
  (10 <= List.length es)%nat ->
  let s' := run (map (Work i) es) s in
  pc_of i s' = Some Exited /\
  is_running (self s') = false /\
  (List.length (requested (log s'))
   <= S (List.length (requested (log s))))%nat /\
  (forall e, log (step (Work i e) s') = log s').
Proof.
  intros Hrun Hpc Hlen s'.
  assert (Hw : (wind_down pc <= List.length es)%nat)
    by (pose proof (wind_down_bound pc); lia).
  destruct (wind_down_run es s i pc Hrun Hpc Hw) as (H1 & H2 & H3).
  fold s' in H1, H2, H3.
  split; [exact H1|]. split; [exact H2|]. split.
  - destruct (6 <=? wind_down pc)%nat; lia.
  - intros e. rewrite (step_work i e Exited s' H1). reflexivity.
Qed.

Lemma ui_run_keeps_pc (acts : list action) : forall (s : app) i pc,
  forallb by_ui acts = true ->
  pc_of i s = Some pc ->
  pc_of i (run acts s) = Some pc.
Proof.
  induction acts as [|a acts IH]; intros s i pc Hui Hpc; [exact Hpc|].
  simpl in Hui. apply andb_true_iff in Hui. destruct Hui as [Ha Hacts].
  cbn [run]. apply IH; [exact Hacts|]. apply ui_keeps_pc; assumption.
Qed.

(** X4: no handler, tick or status update of the UI thread moves or ends a
    worker: whatever the UI thread does, Stop included, every worker stays
    at the statement it was at, and threads are only ever added. *)
Theorem handlers_leave_workers_alone
        (acts : list action) (s : app) (i : nat) (pc : wpc) :
  forallb by_ui acts = true ->
  pc_of i s = Some pc ->
  pc_of i (run acts s) = Some pc /\
  (List.length (threads s) <= List.length (threads (run acts s)))%nat.
Proof.
  intros Hui Hpc. split; [apply ui_run_keeps_pc; assumption|].
  clear Hpc. revert s.
  induction acts as [|a acts IH]; intros s; [simpl; lia|].
  simpl in Hui. apply andb_true_iff in Hui. destruct Hui as [Ha Hacts].
  cbn [run]. specialize (IH Hacts (step a s)).
  destruct (ui_threads a s Ha) as [E|E]; rewrite E in IH;
    rewrite ?length_app in IH; simpl in IH; lia.
Qed.

(** X6: Stop followed by Start, with no statement of the previous worker in
    between, leaves that worker where it was while a second one is started;
    [is_running] is true again, so the previous worker, when it next tests
    line 181, goes on into the new session. *)
Theorem restart_keeps_previous_worker
        (s : app) (i : nat) (pc : wpc) (tts tts' : bool) (r : option frame) :
  is_running (self s) = true ->
  pc_of i s = Some pc ->
  let s' := run [Stop tts; Start true tts' r] s in
  is_running (self s') = true /\
  pc_of i s' = Some pc /\
  threads s' = threads s ++ [AtWhile] /\
  (pc = AtWhile ->
   forall e, pc_of i (step (Work i e) s') = Some AtCheck).
Proof.
  intros Hrun Hpc s'.
  assert (Hstop : is_running (self (stop_navigation tts s)) = false)
    by apply stop_is_running.
  destruct (start_opened tts' r _ Hstop) as (H1 & _ & _ & _ & _ & H2).
  assert (Hpc' : pc_of i s' = Some pc)
    by (apply ui_run_keeps_pc; [reflexivity|exact Hpc]).
  split; [exact H1|]. split; [exact Hpc'|]. split.
  - subst s'. cbn [run step]. rewrite H2.
    rewrite (stop_running_eq tts s Hrun). reflexivity.
  - intros -> e. rewrite (pc_of_step_work i e AtWhile s' Hpc').
    simpl. subst s'. cbn [run step]. rewrite H1. reflexivity.
Qed.


(** ** Widgets *)

Ltac widget_entries :=
  simpl; rewrite ?Forall_app; repeat split; try assumption;
  repeat (apply Forall_cons;
          [simpl; intros; reflexivity || discriminate|]);
  apply Forall_nil.

Lemma worker_step_widgets i e pc s :
  widgets_by_ui (log s) -> widgets_by_ui (log (snd (worker_step i e pc s))).
Proof.
  unfold widgets_by_ui. intros H.
  destruct pc; simpl; unfold_ops; split_tests; try assumption;
    widget_entries.
Qed.

Lemma widgets_by_ui_step a s :
  widgets_by_ui (log s) -> widgets_by_ui (log (step a s)).
Proof.
  unfold widgets_by_ui. intros H. step_cases a s; try assumption.
  - destruct r, tts; widget_entries.
  - widget_entries.
  - destruct (cap (self s)), tts; widget_entries.
  - destruct r; widget_entries.
  - widget_entries.
  - apply worker_step_widgets. exact H.
Qed.

(** X8: every widget is reconfigured on the UI thread only: no entry of
    the log records a widget call by a worker, and no statement of the
    advisory loop changes a widget. *)
Theorem widgets_touched_by_ui_only :
  (forall acts : list action, widgets_by_ui (log (run acts init))) /\
  (forall (i : nat) (e : env) (pc : wpc) (s : app),
      gui (snd (worker_step i e pc s)) = gui s).
Proof.
  split; [|exact worker_step_gui].
  intros acts. apply run_invariant; [exact widgets_by_ui_step|].
  constructor.
Qed.

(** ** The timestamp *)

Lemma last_snoc {A : Type} (l : list A) (x d : A) : last (l ++ [x]) d = x.
Proof. apply last_last. Qed.

(** X9: [last_spoken_time] is 0 until the first request and from then on
    the stamp taken last, by whichever worker. *)
Theorem timestamp_is_latest_stamp (acts : list action) :
  let s := run acts init in
  last_spoken_time (self s) = last (all_stamps (log s)) 0.
Proof.
  apply (run_invariant
           (fun s => last_spoken_time (self s) = last (all_stamps (log s)) 0));
    [|reflexivity].
  intros a s H. destruct (by_ui a) eqn:Hui.
  - destruct (ui_step_stamps a s 0) as (Ea & _ & El & _).
    { intros j e ->. discriminate. }
    rewrite Ea, El. exact H.
  - destruct a as [| | | |j e]; try discriminate.
    destruct (pc_of j s) as [pc|] eqn:Hpc.
    + rewrite (step_work j e pc s Hpc). cbn [self log with_threads].
      destruct (worker_step_stamps 0 j e pc s)
        as [(_ & _ & Ea & _ & El) | (_ & Ea & _ & El & _)];
        rewrite Ea, El; [symmetry; apply last_snoc|exact H].
    + rewrite (step_idle j e s Hpc). exact H.
Qed.


(** ** Frames on their way to the remote model *)

Lemma captured_app l1 l2 :
  captured (l1 ++ l2) = captured l1 ++ captured l2.
Proof.
  induction l1 as [|[th ev] l1 IH]; simpl; [reflexivity|].
  destruct ev; try exact IH. destruct r; [|exact IH].
  simpl. f_equal. exact IH.
Qed.

Lemma ui_step_frames a s :
  by_ui a = true ->
  requested (log (step a s)) = requested (log s) /\
  ((latest_frame (self (step a s)) = latest_frame (self s) /\
    captured (log (step a s)) = captured (log s)) \/
   exists f, latest_frame (self (step a s)) = Some f /\
             captured (log (step a s)) = captured (log s) ++ [f]).
Proof.
  intros Hui. step_cases a s; try discriminate;
    try (split; [reflexivity|left; split; reflexivity]);
    simpl; rewrite ?requested_app, ?captured_app; simpl.
  - destruct tts, r as [f|]; simpl; rewrite ?app_nil_r;
      (split; [reflexivity|]);
      try (right; exists f; split; reflexivity);
      left; split; reflexivity.
  - rewrite ?app_nil_r. split; [reflexivity|left; split; reflexivity].
  - destruct (cap (self s)), tts; simpl; rewrite ?app_nil_r;
      (split; [reflexivity|left; split; reflexivity]).
  - destruct r as [f|]; simpl; rewrite ?app_nil_r;
      (split; [reflexivity|]);
      [right; exists f; split; reflexivity|left; split; reflexivity].
  - rewrite ?app_nil_r. split; [reflexivity|left; split; reflexivity].
Qed.

Lemma ui_pc_origin a s i pc :
  by_ui a = true ->
  pc_of i (step a s) = Some pc ->
  pc_of i s = Some pc \/ pc = AtWhile.
Proof.
  intros Hui Hpc. unfold pc_of in *.
  destruct (ui_threads a s Hui) as [E|E]; rewrite E in Hpc; [left; exact Hpc|].
  destruct pc; try (left; apply (nth_error_snoc_other _ _ _ _ Hpc);
                    discriminate).
  right. reflexivity.
Qed.

Lemma worker_step_captured i e pc s :
  captured (log (snd (worker_step i e pc s))) = captured (log s).
Proof.
  destruct pc; simpl; unfold_ops; split_tests; simpl;
    rewrite ?captured_app; simpl; rewrite ?app_nil_r; reflexivity.
Qed.

Lemma worker_awaits i e pc s :
  awaits_snapshot (fst (worker_step i e pc s)) = true ->
  awaits_snapshot pc = true \/ latest_frame (self s) <> None.
Proof.
  destruct pc; simpl; auto; split_tests; simpl; try discriminate.
  intros _. right.
  match goal with
  | H : (_ && _)%bool = true |- _ =>
      apply andb_true_iff in H; destruct H as [_ H]
  end.
  destruct (latest_frame (self s)); [discriminate|discriminate].
Qed.

Lemma snapshot_inv_step a s : snapshot_inv s -> snapshot_inv (step a s).
Proof.
  unfold snapshot_inv. intros H i pc Hpc Haw.
  destruct (by_ui a) eqn:Hui.
  - destruct (ui_pc_origin a s i pc Hui Hpc) as [Ho | ->]; [|discriminate].
    specialize (H i pc Ho Haw).
    destruct (ui_step_frames a s Hui) as (_ & [[-> _] | (f & -> & _)]);
      [exact H|discriminate].
  - destruct a as [| | | |j e]; try discriminate.
    destruct (pc_of j s) as [pcj|] eqn:Hj.
    + rewrite (step_work j e pcj s Hj) in *. cbn [self with_threads].
      destruct (worker_step_frame j e pcj s) as [-> _].
      destruct (Nat.eq_dec i j) as [->|Hij].
      * pose proof (pc_of_step_work j e pcj s Hj) as Hpc'.
        rewrite (step_work j e pcj s Hj) in Hpc'.
        rewrite Hpc' in Hpc. injection Hpc as <-.
        destruct (worker_awaits j e pcj s Haw) as [Hw|Hw]; [|exact Hw].
        apply (H j pcj Hj Hw).
      * apply (H i pc); [|exact Haw].
        unfold pc_of in *. simpl in Hpc. rewrite threads_worker_step in Hpc.
        rewrite nth_error_set_nth_neq in Hpc by exact Hij. exact Hpc.
    + rewrite (step_idle j e s Hj) in *. apply (H i pc Hpc Haw).
Qed.

(** X10: the snapshot of line 188 always finds a frame: whenever a worker
    of a reachable state stands at that line, [latest_frame] holds a frame
    and the worker goes on to the remote call with it. *)
Theorem snapshot_finds_a_frame (acts : list action) (i : nat) (e : env) :
  let s := run acts init in
  pc_of i s = Some AtConvert ->
  exists f, latest_frame (self s) = Some f /\
            pc_of i (step (Work i e) s) = Some (AtGenerate f).
Proof.
  intros s Hpc.
  assert (Hinv : snapshot_inv s).
  { apply run_invariant; [exact snapshot_inv_step|].
    intros j pc H. destruct j; discriminate. }
  pose proof (Hinv i AtConvert Hpc eq_refl) as Hf.
  destruct (latest_frame (self s)) as [f|] eqn:E; [|contradiction].
  exists f. split; [reflexivity|].
  rewrite (pc_of_step_work i e AtConvert s Hpc). simpl. rewrite E.
  reflexivity.
Qed.


Lemma provenance_inv_step a s : provenance_inv s -> provenance_inv (step a s).
Proof.
  unfold provenance_inv. intros (Hl & Hg & Hr).
  destruct (by_ui a) eqn:Hui.
  - destruct (ui_step_frames a s Hui) as (Ereq & Hcases).
    assert (Hgrow : forall f, In f (captured (log s)) ->
                              In f (captured (log (step a s)))).
    { intros f Hf. destruct Hcases as [[_ ->] | (g & _ & ->)];
        [exact Hf|apply in_or_app; left; exact Hf]. }
    rewrite Ereq. repeat split.
    + intros f Hf. destruct Hcases as [[E ->] | (g & E & ->)].
      * apply Hl. rewrite <- E. exact Hf.
      * rewrite E in Hf. injection Hf as ->.
        apply in_or_app. right. left. reflexivity.
    + intros i f Hpc. apply Hgrow.
      destruct (ui_pc_origin a s i _ Hui Hpc) as [Ho|Ho];
        [exact (Hg i f Ho)|discriminate].
    + intros f Hf. apply Hgrow, Hr, Hf.
  - destruct a as [| | | |j e]; try discriminate.
    destruct (pc_of j s) as [pcj|] eqn:Hj.
    + pose proof (pc_of_step_work j e pcj s Hj) as Hpc'.
      rewrite (step_work j e pcj s Hj) in *. cbn [self log with_threads].
      destruct (worker_step_frame j e pcj s) as [-> _].
      rewrite worker_step_captured, worker_step_requested.
      repeat split.
      * exact Hl.
      * intros i f Hpc. destruct (Nat.eq_dec i j) as [->|Hij].
        -- rewrite Hpc' in Hpc. injection Hpc as Hpc.
           destruct pcj; simpl in Hpc; try discriminate;
             revert Hpc; split_tests; try discriminate.
           intros Hpc. injection Hpc as <-. apply Hl. reflexivity.
        -- apply (Hg i f). unfold pc_of in *. simpl in Hpc.
           rewrite threads_worker_step in Hpc.
           rewrite nth_error_set_nth_neq in Hpc by exact Hij. exact Hpc.
      * intros f Hf. apply in_app_or in Hf. destruct Hf as [Hf|Hf];
          [exact (Hr f Hf)|].
        destruct pcj; simpl in Hf; try contradiction.
        destruct Hf as [<-|[]]. exact (Hg j img Hj).
    + rewrite (step_idle j e s Hj). repeat split; assumption.
Qed.

(** X11: every frame sent to the remote model is one the camera delivered
    earlier; in particular no request is made before the first successful
    read. *)
Theorem requests_carry_captured_frames (acts : list action) :
  let s := run acts init in
  (forall f, In f (requested (log s)) -> In f (captured (log s))) /\
  (captured (log s) = [] -> requested (log s) = []).
Proof.
  intros s.
  assert (Hinv : provenance_inv s).
  { apply run_invariant; [exact provenance_inv_step|].
    repeat split; try discriminate.
    - intros i f H. destruct i; discriminate.
    - intros f []. }
  destruct Hinv as (_ & _ & Hr). split; [exact Hr|].
  intros Hc. destruct (requested (log s)) as [|f l]; [reflexivity|].
  specialize (Hr f (or_introl eq_refl)). rewrite Hc in Hr. destruct Hr.
Qed.


(** ** Cleaning the reply *)

Lemma lstrip_fixed (m : pystr) :
  (forall c, hd_error m = Some c -> PyStr.isspace c = false) ->
  PyStr.lstrip m = m.
Proof.
  destruct m as [|c m]; [reflexivity|]. intros H. simpl.
  rewrite (H c eq_refl). reflexivity.
Qed.

Lemma rstrip_fixed (m : pystr) :
  (forall c, hd_error (rev m) = Some c -> PyStr.isspace c = false) ->
  PyStr.rstrip m = m.
Proof.
  intros H. unfold PyStr.rstrip. rewrite (lstrip_fixed _ H).
  apply rev_involutive.
Qed.

Lemma lstrip_blank (s : pystr) :
  forallb PyStr.isspace s = true -> PyStr.lstrip s = [].
Proof.
  induction s as [|c s IH]; simpl; [reflexivity|].
  intros H. apply andb_true_iff in H. destruct H as [Hc Hs].
  rewrite Hc. apply IH, Hs.
Qed.

Lemma strip_length (s : pystr) :
  (List.length (PyStr.strip s) <= List.length s)%nat.
Proof.
  destruct (strip_spec s) as ((l & r & Hs & _) & _).
  rewrite Hs at 2. rewrite !length_app. lia.
Qed.

(** X12: stripping is idempotent, the cleaned text holds no asterisk left
    to remove, and cleaning never lengthens the text. *)
Theorem strip_idempotent_clean_shrinks (s : pystr) :
  PyStr.strip (PyStr.strip s) = PyStr.strip s /\
  PyStr.replace_star (clean s) = clean s /\
  (List.length (clean s) <= List.length s)%nat.
Proof.
  destruct (strip_spec s) as (_ & Hhd & Hlast).
  split; [|split].
  - unfold PyStr.strip at 1.
    rewrite (lstrip_fixed _ Hhd). apply rstrip_fixed, Hlast.
  - unfold clean, PyStr.replace_star. clear Hhd Hlast.
    induction (PyStr.strip s) as [|c m IH]; simpl; [reflexivity|].
    destruct (negb (c =? PyStr.star)%N) eqn:E; simpl; rewrite ?E;
      [f_equal|]; exact IH.
  - unfold clean, PyStr.replace_star.
    etransitivity; [apply filter_length_le|apply strip_length].
Qed.

(** X13: a reply of whitespace only is not skipped: the advice is the
    empty text, the status "AI Cue: " with nothing after it is queued, and
    the speech engine is handed the empty text. *)
Theorem blank_reply_is_still_a_cue
        (s : app) (i : nat) (img : frame) (text : pystr) (e1 e2 e3 e4 : env) :
  pc_of i s = Some (AtGenerate img) ->
  reply e1 = Returned (Some text) ->
  forallb PyStr.isspace text = true ->
  let s' := run [Work i e1; Work i e2; Work i e3; Work i e4] s in
  clean text = [] /\
  after0 (tk s') = after0 (tk s) ++ [PyStr.lit "AI Cue: "] /\
  said (Worker i) (log s') = said (Worker i) (log s) ++ [[]] /\
  pc_of i s' = Some AtSleep.
Proof.
  intros Hpc Hr Hblank s'.
  assert (Hc : clean text = []).
  { unfold clean, PyStr.strip. rewrite (lstrip_blank text Hblank).
    reflexivity. }
  destruct (success_path s i img text e1 e2 e3 e4 Hpc Hr)
    as (Hpc' & _ & _ & Htk & Hlog).
  fold s' in Hpc', Htk, Hlog. rewrite Hc in Htk, Hlog.
  split; [exact Hc|]. split; [rewrite Htk; reflexivity|].
  split; [|exact Hpc'].
  rewrite Hlog, !said_app. f_equal. simpl. rewrite Nat.eqb_refl.
  destruct (tts_ok e4); reflexivity.
Qed.


(** ** Closing the window *)

(** X14: closing the window stops the session: afterwards [is_running] is
    false, no opened camera is held, every camera that was opened has been
    released, and destruction of the window is queued 200 ms later; the
    worker threads are left as they are, and closing again changes
    nothing. *)
Theorem close_releases_the_camera (acts : list action) (tts tts' : bool) :
  let s := run acts init in
  let c := on_close tts s in
  is_running (self (residue c)) = false /\
  cap (self (residue c)) <> Some {| isOpened := true |} /\
  count is_release (log (residue c)) = count is_open_ok (log (residue c)) /\
  threads (residue c) = threads s /\
  residue (on_close tts' (residue c)) = residue c /\
  destroy_after c = 200%nat.
Proof.
  intros s c.
  assert (E : residue c = run (acts ++ [Stop tts]) init)
    by (rewrite run_app; reflexivity).
  assert (Hrun : is_running (self (residue c)) = false)
    by apply stop_is_running.
  split; [exact Hrun|]. split; [|split; [|split; [|split]]].
  - pose proof (handle_inv_run (acts ++ [Stop tts])) as H.
    rewrite <- E in H. unfold handle_inv in H. rewrite Hrun in H.
    destruct H as [H|H]; rewrite H; discriminate.
  - destruct (camera_inv_run (acts ++ [Stop tts])) as [_ H].
    rewrite <- E in H. rewrite Hrun in H. lia.
  - subst c. cbn [on_close residue].
    destruct (is_running (self s)) eqn:Hr.
    + rewrite (stop_running_eq tts s Hr). reflexivity.
    + rewrite (stop_not_running tts s Hr). reflexivity.
  - apply stop_twice.
  - reflexivity.
Qed.

(** ** The capture loop after Stop *)

Lemma idle_tick r s :
  is_running (self s) = false ->
  let s' := step (Tick r) s in
  self s' = self s /\ gui s' = gui s /\ log s' = log s /\
  threads s' = threads s /\ after0 (tk s') = after0 (tk s) /\
  after20 (tk s') = pred (after20 (tk s)).
Proof.
  intros Hrun. change (step (Tick r) s) with (run_after20 r s).
  rewrite run_after20_eq. destruct (after20 (tk s)) as [|n] eqn:Hq.
  - cbv zeta. rewrite Hq. repeat split.
  - rewrite update_frame_idle; [cbv zeta; simpl; repeat split|].
    simpl. rewrite Hrun. reflexivity.
Qed.

(** X15: while no session runs, a queued tick reads no camera, shows
    nothing and is not rescheduled: each one that fires is simply used up,
    so the capture loop of a stopped session dies out. *)
Theorem capture_loop_dies_out (rs : list (option frame)) (s : app) :
  is_running (self s) = false ->
  let s' := run (map Tick rs) s in
  self s' = self s /\ gui s' = gui s /\ log s' = log s /\
  threads s' = threads s /\
  after20 (tk s') = (after20 (tk s) - List.length rs)%nat.
Proof.
  revert s. induction rs as [|r rs IH]; intros s Hrun.
  - simpl. repeat split. lia.
  - cbn [map run].
    destruct (idle_tick r s Hrun) as (Hs & Hg & Hl & Ht & _ & Hq).
    assert (Hrun' : is_running (self (step (Tick r) s)) = false)
      by (rewrite Hs; exact Hrun).
    destruct (IH _ Hrun') as (H1 & H2 & H3 & H4 & H5).
    rewrite H1, H2, H3, H4, H5, Hs, Hg, Hl, Ht, Hq.
    repeat split. simpl. lia.
Qed.

Lemma worker_step_tk20 i e pc s :
  after20 (tk (snd (worker_step i e pc s))) = after20 (tk s).
Proof.
  destruct pc; simpl; unfold_ops; split_tests; reflexivity.
Qed.

(** X16: along every execution there are at most as many queued ticks as
    cameras were opened: a tick reschedules itself at most once, and only a
    successful Start begins a new chain of ticks. *)
Theorem tick_chains_bounded (acts : list action) :
  let s := run acts init in
  (after20 (tk s) <= count is_open_ok (log s))%nat.
Proof.
  intros s.
  apply (run_invariant
           (fun s => (after20 (tk s) <= count is_open_ok (log s))%nat));
    [|simpl; unfold count; simpl; lia].
  clear. intros a s H.
  step_cases a s; simpl; rewrite ?count_app; unfold count in *; simpl;
    rewrite ?length_app; simpl; try lia.
  destruct (worker_step_camera j e pc s) as (_ & _ & _ & Ho).
  unfold count in Ho. rewrite Ho, worker_step_tk20. exact H.
Qed.


(** ** The test of line 183 *)

(** X17: the test of line 183 is strict and needs a frame: with no frame
    stored, or with no more than 4 seconds since [last_spoken_time]
    (exactly 4 included), the worker goes to sleep without stamping,
    queueing or requesting anything. *)
Theorem no_request_without_frame_or_within_interval
        (s : app) (i : nat) (e : env) :
  pc_of i s = Some AtCheck ->
  latest_frame (self s) = None \/ now e - last_spoken_time (self s) <= 4 ->
  let s' := step (Work i e) s in
  pc_of i s' = Some AtSleep /\
  self s' = self s /\ log s' = log s /\ tk s' = tk s.
Proof.
  intros Hpc Hno s'. subst s'.
  rewrite (pc_of_step_work i e AtCheck s Hpc).
  rewrite (step_work i e AtCheck s Hpc). cbn [worker_step].
  assert (E : due (now e) (last_spoken_time (self s))
              && is_some (latest_frame (self s)) = false).
  { destruct Hno as [-> | Hle]; [apply andb_false_r|].
    apply andb_false_iff. left.
    destruct (due (now e) (last_spoken_time (self s))) eqn:Hd; [|reflexivity].
    apply due_spec in Hd. lra. }
  rewrite E. repeat split.
Qed.


(** ** One session *)

Lemma stamps_owned_grow (n m : nat) (l : list (thread * event)) :
  (n <= m)%nat ->
  Forall (fun x => match x with
                   | (Worker j, Stamp _) => (j < n)%nat
                   | (UI, Stamp _) => False
                   | _ => True
                   end) l ->
  Forall (fun x => match x with
                   | (Worker j, Stamp _) => (j < m)%nat
                   | (UI, Stamp _) => False
                   | _ => True
                   end) l.
Proof.
  intros Hnm. apply Forall_impl. intros [[|j] ev]; destruct ev; auto.
  intros H. lia.
Qed.

Lemma worker_step_owned j e pc s :
  pc_of j s = Some pc ->
  stamps_owned s ->
  Forall (fun x => match x with
                   | (Worker k, Stamp _) => (k < List.length (threads s))%nat
                   | (UI, Stamp _) => False
                   | _ => True
                   end) (log (snd (worker_step j e pc s))).
Proof.
  unfold stamps_owned. intros Hpc H.
  assert (Hj : (j < List.length (threads s))%nat).
  { apply nth_error_Some. unfold pc_of in Hpc. rewrite Hpc. discriminate. }
  destruct pc; simpl; unfold_ops; split_tests; simpl; try assumption;
    rewrite ?Forall_app; repeat split; try assumption;
    repeat (apply Forall_cons; [simpl; auto|]); apply Forall_nil.
Qed.

Ltac owned :=
  simpl; rewrite ?Forall_app; repeat split;
  first [ assumption
        | eapply stamps_owned_grow; [|eassumption];
          rewrite ?length_app; lia
        | repeat (apply Forall_cons; [simpl; auto|]); apply Forall_nil ].

Lemma stamps_owned_step a s : stamps_owned s -> stamps_owned (step a s).
Proof.
  unfold stamps_owned. intros H.
  step_cases a s; try assumption.
  - destruct tts, r; owned.
  - owned.
  - destruct (cap (self s)), tts; owned.
  - destruct r; owned.
  - owned.
  - simpl. rewrite length_set_nth, threads_worker_step.
    apply worker_step_owned; assumption.
Qed.

Lemma all_stamps_single (l : list (thread * event)) :
  Forall (fun x => match x with
                   | (Worker j, Stamp _) => (j < 1)%nat
                   | (UI, Stamp _) => False
                   | _ => True
                   end) l ->
  all_stamps l = stamps 0 l.
Proof.
  induction 1 as [|[[|j] ev] l Hx Hl IH]; [reflexivity| |].
  - destruct ev; simpl; try exact IH. contradiction.
  - destruct ev; simpl; try exact IH.
    destruct j; [simpl; f_equal; exact IH|lia].
Qed.

(** X18: as long as at most one camera was ever opened, hence at most one
    worker exists, all requests of the execution are stamped more than 4
    seconds apart, given clock readings that do not go back. *)
Theorem one_session_requests_spaced (acts : list action) (c : Q) :
  clock_mono c acts ->
  (count is_open_ok (log (run acts init)) <= 1)%nat ->
  spaced (all_stamps (log (run acts init))).
Proof.
  intros Hm Hone.
  assert (Hown : stamps_owned (run acts init)).
  { apply run_invariant; [exact stamps_owned_step|constructor]. }
  destruct (threads_inv_run acts) as (Hlen & _).
  unfold stamps_owned in Hown.
  apply (stamps_owned_grow _ 1) in Hown; [|lia].
  rewrite (all_stamps_single _ Hown).
  destruct (stamp_inv_run acts c 0%nat init Hm (stamp_inv_init c 0%nat))
    as (c' & _ & _ & _ & H).
  exact H.
Qed.


(** ** Spacing of the requests, loop by loop and in one session *)



End App.

(** * The statements at the sample session

    Frames are numbered; the camera delivers frame 7. *)

(** The worker is in the remote call; the model answers the first example
    of the prompt. *)
Lemma advisory_success_cue_witness :
  let e := env_at 100 sample_reply in
  let s' := run [Work 0 e; Work 0 e; Work 0 e; Work 0 e] (sample 7%nat 5) in
  ai_status_label (gui (drain s'))
  = PyStr.lit "AI Cue: Clear path ahead. Walk forward." /\
  said (Worker 0) (log s')
  = said (Worker 0) (log (sample 7%nat 5))
    ++ [PyStr.lit "Clear path ahead. Walk forward."].
Proof.
  intros e s'.
  assert (Hpc : pc_of 0 (sample 7%nat 5) = Some (AtGenerate 7%nat))
    by (vm_compute; reflexivity).
  pose proof (advisory_success_cue (sample 7%nat 5) 0 7%nat
                (PyStr.lit "Clear path ahead. Walk forward.")
                e e e e Hpc eq_refl) as H.
  cbv zeta in H. destruct H as (_ & _ & _ & _ & _ & _ & H).
  exact (H eq_refl).
Defined.



(** After one request and Stop, the frame and the timestamp of the session
    are still there, and the next Start finds them. *)
Lemma stop_keeps_state_counterexample :
  let s := stop_navigation true (sample 7%nat 3) in
  latest_frame (self s) = Some 7%nat /\
  last_spoken_time (self s) = 100 /\
  self s <> self init /\
  latest_frame (self (start_navigation true true None s)) = Some 7%nat /\
  last_spoken_time (self (start_navigation true true None s)) = 100.
Proof.
  intros s. split; [vm_compute; reflexivity|].
  split; [vm_compute; reflexivity|].
  split; [|split; vm_compute; reflexivity].
  intros H. apply (f_equal latest_frame) in H. vm_compute in H.
  discriminate H.
Qed.

(** Stop and Start again after the first stamp of the sample session. *)
Lemma stop_keeps_frame_and_timestamp_witness :
  let s := sample 7%nat 3 in
  let s1 := stop_navigation true s in
  let s2 := start_navigation true true None s1 in
  latest_frame (self s1) = latest_frame (self s) /\
  last_spoken_time (self s2) = last_spoken_time (self s) /\
  latest_frame (self s2) = latest_frame (self s).
Proof.
  intros s s1 s2.
  assert (Hrun : is_running (self s) = true) by (vm_compute; reflexivity).
  assert (Hcap : cap (self s) = Some {| isOpened := true |})
    by (vm_compute; reflexivity).
  pose proof (stop_keeps_frame_and_timestamp true true None s _ Hrun Hcap)
    as H.
  cbv zeta in H. destruct H as (_ & (H1 & _) & (_ & H2 & H3)).
  split; [exact H1|]. split; [exact H2|exact H3].
Defined.

(** Start on the fresh application with no camera: [cap] is no longer
    [None]. *)
Lemma start_keeps_nothing_else_counterexample :
  cap (self (start_navigation false true None (@init nat)))
  = Some {| isOpened := false |} /\
  self (start_navigation false true None (@init nat)) <> self (@init nat).
Proof.
  split; [reflexivity|].
  intros H. apply (f_equal cap) in H. vm_compute in H. discriminate H.
Qed.

(** Start on the fresh application with no camera. *)
Lemma start_without_camera_witness :
  let s' := start_navigation false true None (@init nat) in
  is_running (self s') = false /\ threads s' = [] /\
  cap (self s') = Some {| isOpened := false |}.
Proof.
  intros s'.
  pose proof (start_without_camera true None (@init nat) eq_refl) as H.
  cbv zeta in H. destruct H as (_ & H1 & H2 & _ & _ & _ & _ & _ & H3).
  split; [exact H1|]. split; [exact H2|exact H3].
Defined.

(** Stop while the worker is in the remote call: the release does not come
    before the Start button is enabled. *)
Lemma release_after_enable_counterexample :
  ~ released_before_enabled
      (emitted (sample 7%nat 5) (stop_navigation true (sample 7%nat 5))).
Proof.
  intros (n & m & Hr & He & Hlt).
  vm_compute in Hr. vm_compute in He.
  injection Hr as <-. injection He as <-. lia.
Qed.

(** Stop while the worker is in the remote call. *)
Lemma stop_enables_start_then_releases_witness :
  let s := sample 7%nat 5 in
  pc_of 0 s = Some (AtGenerate 7%nat) /\
  enabled_before_released (emitted s (stop_navigation true s)) /\
  cap (self (stop_navigation true s)) = None.
Proof.
  intros s.
  assert (Hrun : is_running (self s) = true) by (vm_compute; reflexivity).
  assert (Hcap : cap (self s) = Some {| isOpened := true |})
    by (vm_compute; reflexivity).
  pose proof (stop_enables_start_then_releases true s _ Hrun Hcap) as H.
  cbv zeta in H. destruct H as (_ & H1 & _ & _ & H2 & _).
  split; [vm_compute; reflexivity|]. split; [exact H1|exact H2].
Defined.

(** Start alone already speaks on the UI thread. *)
Lemma ui_thread_speaks_counterexample :
  ~ ui_never_blocks (log (sample 7%nat 0)).
Proof.
  unfold ui_never_blocks. rewrite Forall_forall. intros H.
  specialize (H (UI, Say (PyStr.lit "Navigation system activated."))).
  assert (Hin : In (UI, Say (PyStr.lit "Navigation system activated."))
                   (log (sample 7%nat 0))).
  { vm_compute. do 4 right. left. reflexivity. }
  specialize (H Hin). discriminate H.
Qed.

(** The remote call of the sample session times out at 120; the next
    iteration, at 121, is more than 4 seconds past the stamp of 100. *)
Lemma advisory_failure_handled_witness :
  let s := sample 7%nat 5 in
  let e1 := env_at 120 (Raised Timeout) in
  let e := env_at 121 sample_reply in
  let s' := run (firstn (failure_path (reply e1))
                        [Work 0 e1; Work 0 e; Work 0 e; Work 0 e]) s in
  let s'' := run [Work 0 e; Work 0 e] s' in
  ai_status_label (gui (drain s')) = ai_error /\
  is_running (self s') = true /\
  pc_of 0 s' = Some AtWhile /\
  emitted s' s'' = [] /\
  pc_of 0 s'' = Some AtStamp.
Proof.
  intros s e1 e s' s''.
  assert (Hpc : pc_of 0 s = Some (AtGenerate 7%nat))
    by (vm_compute; reflexivity).
  pose proof (advisory_failure_handled s 0 7%nat e1 e e e e e Hpc eq_refl)
    as H.
  cbv zeta in H. destruct H as ((_ & H1 & H2 & H3) & (H4 & _ & H5)).
  split; [exact H1|]. split; [|split; [exact H3|]].
  - transitivity (is_running (self s));
      [exact (f_equal is_running H2)|vm_compute; reflexivity].
  - split; [exact H4|].
    etransitivity; [exact H5|vm_compute; reflexivity].
Defined.

(** Frame 7 is stored by Start; a failed tick and four worker statements
    follow before the snapshot. *)
Lemma latest_frame_reads_witness :
  let e := env_at 100 sample_reply in
  let p := [Work 0 e; Work 0 e; Work 0 e; Tick None; Work 0 e] in
  latest_frame (self (run p (sample 7%nat 0))) = Some 7%nat /\
  pc_of 0 (run (p ++ [Work 0 e]) (sample 7%nat 0))
  = Some (AtGenerate 7%nat).
Proof.
  intros e p.
  assert (Hf : latest_frame (self (sample 7%nat 0)) = Some 7%nat)
    by (vm_compute; reflexivity).
  assert (Hpc : pc_of 0 (run p (sample 7%nat 0)) = Some AtConvert)
    by (vm_compute; reflexivity).
  pose proof (latest_frame_reads (sample 7%nat 0) 7%nat p 0 e
                Hf eq_refl Hpc) as H.
  destruct H as (_ & H1 & _ & H2). split; [exact H1|exact H2].
Defined.

(** Two failed ticks before the snapshot of the sample session. *)
Lemma failed_read_keeps_frame_witness :
  let e := env_at 100 sample_reply in
  let s := run (repeat (Tick None) 2) (run (sample_acts 7%nat 4) init) in
  after20 (tk s) = 1%nat /\
  latest_frame (self s) = Some 7%nat /\
  emitted s (run [Work 0 e; Work 0 e] s) = [(Worker 0, Request 7%nat)].
Proof.
  intros e s.
  assert (Hl : last_captured None (log (run (sample_acts 7%nat 4) init))
               = Some 7%nat) by (vm_compute; reflexivity).
  assert (Hpc : pc_of 0 s = Some AtConvert) by (vm_compute; reflexivity).
  pose proof (failed_read_keeps_frame (sample_acts 7%nat 4) 2 0 7%nat e e
                Hl Hpc) as H.
  cbv zeta in H. destruct H as (_ & H1 & H2).
  split; [vm_compute; reflexivity|]. split; [exact H1|exact H2].
Defined.

(** The UI thread stops, ticks, updates the label and starts again while the
    worker of the sample session is in the remote call. *)
Lemma handlers_leave_workers_alone_witness :
  let acts := [Stop true; Tick None; Idle; Start true true None] in
  pc_of 0 (run acts (sample 7%nat 5)) = Some (AtGenerate 7%nat) /\
  (List.length (threads (sample 7%nat 5))
   <= List.length (threads (run acts (sample 7%nat 5))))%nat.
Proof.
  intros acts.
  assert (Hpc : pc_of 0 (sample 7%nat 5) = Some (AtGenerate 7%nat))
    by (vm_compute; reflexivity).
  exact (handlers_leave_workers_alone acts (sample 7%nat 5) 0
           (AtGenerate 7%nat) eq_refl Hpc).
Defined.

(** Stop while the worker is in the remote call, then ten statements of the
    worker. *)
Lemma worker_leaves_loop_after_stop_witness :
  let s := stop_navigation true (sample 7%nat 5) in
  let es := repeat (env_at 100 sample_reply) 10 in
  pc_of 0 (run (map (Work 0) es) s) = Some Exited /\
  is_running (self (run (map (Work 0) es) s)) = false.
Proof.
  intros s es.
  assert (Hrun : is_running (self s) = false) by (vm_compute; reflexivity).
  assert (Hpc : pc_of 0 s = Some (AtGenerate 7%nat))
    by (vm_compute; reflexivity).
  assert (Hlen : (10 <= List.length es)%nat) by (vm_compute; lia).
  pose proof (worker_leaves_loop_after_stop s 0 _ es Hrun Hpc Hlen) as H.
  cbv zeta in H. destruct H as (H1 & H2 & _).
  split; [exact H1|exact H2].
Defined.

(** Stop and Start again while the worker is in the remote call. *)
Lemma restart_keeps_previous_worker_witness :
  let s' := run [Stop true; Start true true None] (sample 7%nat 5) in
  is_running (self s') = true /\
  pc_of 0 s' = Some (AtGenerate 7%nat) /\
  threads s' = threads (sample 7%nat 5) ++ [AtWhile].
Proof.
  intros s'.
  assert (Hrun : is_running (self (sample 7%nat 5)) = true)
    by (vm_compute; reflexivity).
  assert (Hpc : pc_of 0 (sample 7%nat 5) = Some (AtGenerate 7%nat))
    by (vm_compute; reflexivity).
  pose proof (restart_keeps_previous_worker (sample 7%nat 5) 0 _ true true
                None Hrun Hpc) as H.
  cbv zeta in H. destruct H as (H1 & H2 & H3 & _).
  split; [exact H1|]. split; [exact H2|exact H3].
Defined.

(** The worker of the sample session at line 188. *)
Lemma snapshot_finds_a_frame_witness :
  let s := run (sample_acts 7%nat 4) init in
  exists f, latest_frame (self s) = Some f /\
            pc_of 0 (step (Work 0 (env_at 100 sample_reply)) s)
            = Some (AtGenerate f).
Proof.
  intros s.
  assert (Hpc : pc_of 0 s = Some AtConvert) by (vm_compute; reflexivity).
  exact (snapshot_finds_a_frame (sample_acts 7%nat 4) 0
           (env_at 100 sample_reply) Hpc).
Defined.

(** The remote model answers two blanks. *)
Lemma blank_reply_is_still_a_cue_witness :
  let e1 := env_at 100 (Returned (Some (PyStr.lit "  "))) in
  let e := env_at 100 sample_reply in
  let s' := run [Work 0 e1; Work 0 e; Work 0 e; Work 0 e] (sample 7%nat 5) in
  after0 (tk s') = after0 (tk (sample 7%nat 5)) ++ [PyStr.lit "AI Cue: "] /\
  said (Worker 0) (log s') = said (Worker 0) (log (sample 7%nat 5)) ++ [[]].
Proof.
  intros e1 e s'.
  assert (Hpc : pc_of 0 (sample 7%nat 5) = Some (AtGenerate 7%nat))
    by (vm_compute; reflexivity).
  pose proof (blank_reply_is_still_a_cue (sample 7%nat 5) 0 7%nat
                (PyStr.lit "  ") e1 e e e Hpc eq_refl eq_refl) as H.
  cbv zeta in H. destruct H as (_ & H1 & H2 & _).
  split; [exact H1|exact H2].
Defined.

(** The tick queued by Start fires after Stop, and a second one is tried. *)
Lemma capture_loop_dies_out_witness :
  let s := stop_navigation true (sample 7%nat 0) in
  let s' := run (map Tick [Some 8%nat; None]) s in
  after20 (tk s) = 1%nat /\
  log s' = log s /\ self s' = self s /\
  after20 (tk s') = (after20 (tk s) - 2)%nat.
Proof.
  intros s s'.
  assert (Hrun : is_running (self s) = false) by (vm_compute; reflexivity).
  pose proof (capture_loop_dies_out [Some 8%nat; None] s Hrun) as H.
  cbv zeta in H. destruct H as (H1 & _ & H3 & _ & H5).
  split; [vm_compute; reflexivity|].
  split; [exact H3|]. split; [exact H1|exact H5].
Defined.

(** The first test of the sample session, at clock reading 4 exactly. *)
Lemma no_request_without_frame_or_within_interval_witness :
  let e := env_at 4 sample_reply in
  pc_of 0 (step (Work 0 e) (sample 7%nat 1)) = Some AtSleep /\
  log (step (Work 0 e) (sample 7%nat 1)) = log (sample 7%nat 1).
Proof.
  intros e.
  assert (Hpc : pc_of 0 (sample 7%nat 1) = Some AtCheck)
    by (vm_compute; reflexivity).
  assert (Hle : latest_frame (self (sample 7%nat 1)) = None \/
                now e - last_spoken_time (self (sample 7%nat 1)) <= 4).
  { right. apply Qle_bool_iff. vm_compute. reflexivity. }
  pose proof (no_request_without_frame_or_within_interval
                (sample 7%nat 1) 0 e Hpc Hle) as H.
  cbv zeta in H. destruct H as (H1 & _ & H2 & _).
  split; [exact H1|exact H2].
Defined.

(** The two requests of the sample session, stamped at 100 and 105. *)
Lemma one_session_requests_spaced_witness :
  spaced (all_stamps
            (log (run (sample_acts 7%nat 11
                       ++ repeat (Work 0 (env_at 105 sample_reply)) 4)
                      init))).
Proof.
  assert (Hm : clock_mono 0 (sample_acts 7%nat 11
                             ++ repeat (Work 0 (env_at 105 sample_reply)) 4)).
  { simpl. repeat split; apply Qle_bool_iff; reflexivity. }
  assert (Hone : (count is_open_ok
                    (log (run (sample_acts 7%nat 11
                               ++ repeat (Work 0 (env_at 105 sample_reply)) 4)
                              init)) <= 1)%nat).
  { vm_compute. lia. }
  exact (one_session_requests_spaced _ 0 Hm Hone).
Defined.
